(** * camera-watchdog: a shallow embedding of [camera-watchdog.py]

    The script is a cron-driven watchdog: it probes an HTTP endpoint,
    restarts a systemd unit when the probe is not a 200, retries with
    growing waits, and keeps a status file, a throttle file and a lock
    file under /tmp.

    The embedding follows the script function by function.  Everything the
    script gets from outside (the HTTP exchange, [systemctl], the clock,
    the lock, I/O faults of the file system) is an oracle of the
    environment [Env]; everything it changes (files, the sequence of
    probes, restarts and sleeps) is part of the state [World].  Python
    exceptions are the [Raise] outcome of a small state-and-error monad.
    The diagnostic [print] calls are left out: they touch neither the
    files nor the control flow. *)

From Stdlib Require Import ZArith QArith.
From stdpp Require Import gmap strings list fin_maps pretty.

Set Warnings "-register-all".

Local Open Scope Z_scope.
Local Open Scope string_scope.
Local Open Scope list_scope.

(* ===================================================================== *)
(** ** Values: what [json.load] produces and [json.dump] accepts          *)
(* ===================================================================== *)

(** A Python [float]: not-a-number, an infinity, or a finite rational. *)
Inductive pyfloat :=
  | FNaN
  | FInf (negative : bool)
  | FFin (q : Q).

(** The values of the script: [None], [bool], [int], [float], [str],
    [list] and [dict] with string keys. *)
Inductive json :=
  | JNull
  | JBool (b : bool)
  | JInt (n : Z)
  | JFloat (f : pyfloat)
  | JStr (s : string)
  | JArr (l : list json)
  | JObj (m : gmap string json).

(** A Python [dict] with string keys. *)
Abbreviation dict := (gmap string json).

(** The exceptions that the modelled code can raise. *)
Inductive exn :=
  | AttributeError (msg : string)
  | TypeError (msg : string)
  | ValueError (msg : string)
  | OverflowError (msg : string)
  | IndexError (msg : string)
  | OSError (msg : string).

(** Outcome of a computation: a value or a raised exception. *)
Inductive result (A : Type) :=
  | Ok (a : A)
  | Raise (e : exn).
Arguments Ok {A} a.
Arguments Raise {A} e.

(** [bool(x)]: Python truthiness. *)
Definition py_bool (v : json) : bool :=
  match v with
  | JNull => false
  | JBool b => b
  | JInt n => negb (Z.eqb n 0)
  | JFloat FNaN => true
  | JFloat (FInf _) => true
  | JFloat (FFin q) => negb (Z.eqb (Qnum q) 0)
  | JStr s => negb (String.eqb s "")
  | JArr l => match l with [] => false | _ => true end
  | JObj m => negb (Nat.eqb (size m) 0)
  end.

(** The type name Python prints in its error messages. *)
Definition py_type_name (v : json) : string :=
  match v with
  | JNull => "NoneType"
  | JBool _ => "bool"
  | JInt _ => "int"
  | JFloat _ => "float"
  | JStr _ => "str"
  | JArr _ => "list"
  | JObj _ => "dict"
  end.

(** Attribute lookup [x.get]: only a dict has the method; on any other
    value Python raises [AttributeError] before the call is made. *)
Definition py_dict (v : json) : result dict :=
  match v with
  | JObj m => Ok m
  | _ => Raise (AttributeError
                  ("'" +:+ py_type_name v +:+ "' object has no attribute 'get'"))
  end.

(** [d.get(key, default)] on a dict. *)
Definition dict_get (d : dict) (key : string) (default : json) : json :=
  match d !! key with
  | Some x => x
  | None => default
  end.

Section Coercions.

(** [int(s)] on a string is Python's own parser (blanks, sign, digits,
    underscores); it is taken as given. [None] stands for [ValueError]. *)
Variable int_of_str : string -> option Z.

(** [int(x)]: [bool] and [int] convert, a [float] is truncated towards
    zero, a [str] is parsed; [None], lists and dicts are type errors. *)
Definition py_int (v : json) : result Z :=
  match v with
  | JBool b => Ok (if b then 1 else 0)
  | JInt n => Ok n
  | JFloat FNaN => Raise (ValueError "cannot convert float NaN to integer")
  | JFloat (FInf _) => Raise (OverflowError "cannot convert float infinity to integer")
  | JFloat (FFin q) => Ok (Z.quot (Qnum q) (Zpos (Qden q)))
  | JStr s => match int_of_str s with
              | Some n => Ok n
              | None => Raise (ValueError "invalid literal for int() with base 10")
              end
  | _ => Raise (TypeError "int() argument must be a string, a bytes-like object or a real number")
  end.

End Coercions.

(* ===================================================================== *)
(** ** Configuration                                                      *)
(* ===================================================================== *)

Definition URL : string := "http://localhost:8080/snapshot".
Definition TIMEOUT_SECONDS : Z := 5.

Definition MAX_RETRIES : Z := 5.
Definition BASE_WAIT_SECONDS : Z := 30.
Definition WAIT_INCREMENT_SECONDS : Z := 30.

Definition STATUS_FILE : string := "/tmp/crowsnest_watchdog_status.json".
Definition THROTTLE_FILE : string := "/tmp/crowsnest_watchdog_throttle.json".
Definition LOCK_FILE : string := "/tmp/crowsnest_watchdog.lock".

Definition SERVICE_NAME : string := "crowsnest".
Definition RESTART_CMD : list string := ["systemctl"; "restart"; SERVICE_NAME].

Definition RUN_EVERY_N_AFTER_FAILURE : Z := 10.

(* ===================================================================== *)
(** ** The file system                                                    *)
(* ===================================================================== *)

(** What a file holds, as far as [json.load] can tell. *)
Inductive contents :=
  | Empty                (** no bytes: a file just created or truncated *)
  | Document (j : json)  (** a complete JSON text; [json.load] gives [j] *)
  | Prefix (d : dict)    (** the serialisation of the dict [d] cut short *)
  | Garbage.             (** any other bytes; [json.load] rejects them *)

(** A file: its contents and whether they have reached the disk. *)
Record file := File { data : contents; synced : bool }.

Abbreviation Fs := (gmap string file).

(** The steps [write_json_atomic] takes on the file system. *)
Inductive fs_op :=
  | Create (p : string)              (** [open(p, "w")] *)
  | Dump (p : string) (d : dict)     (** [json.dump(d, f, ...); f.flush()] *)
  | Fsync (p : string)               (** [os.fsync(f.fileno())] *)
  | Replace (src dst : string).      (** [os.replace(src, dst)] *)

(** The file system after a step that completes. [os.replace] is one
    step: the rename either happened or did not. *)
Definition fs_step (op : fs_op) (fs : Fs) : Fs :=
  match op with
  | Create p => <[p := File Empty false]> fs
  | Dump p d => <[p := File (Document (JObj d)) false]> fs
  | Fsync p => alter (fun f => File (data f) true) p fs
  | Replace src dst =>
      match fs !! src with
      | Some f => <[dst := f]> (delete src fs)
      | None => fs
      end
  end.

(** The file system a step leaves behind when it is cut short, by an
    [OSError] or by a crash: an interrupted dump leaves part of the text,
    the other steps leave nothing. *)
Definition fs_fail (op : fs_op) (fs : Fs) : Fs :=
  match op with
  | Dump p d => <[p := File (Prefix d) false]> fs
  | _ => fs
  end.

(** Run the steps in order; [fault = Some k] makes step number [k] (from
    0) raise [OSError]. *)
Fixpoint run_ops (ops : list fs_op) (fault : option nat) (fs : Fs)
  : result unit * Fs :=
  match ops with
  | [] => (Ok tt, fs)
  | op :: rest =>
      match fault with
      | Some O => (Raise (OSError "I/O error"), fs_fail op fs)
      | Some (S k) => run_ops rest (Some k) (fs_step op fs)
      | None => run_ops rest None (fs_step op fs)
      end
  end.

(** Every state of the file system that a crash or another process can
    see while the steps run: before each step, in the middle of it, and
    after the last. *)
Fixpoint observable (ops : list fs_op) (fs : Fs) : list Fs :=
  fs :: match ops with
        | [] => []
        | op :: rest => fs_fail op fs :: observable rest (fs_step op fs)
        end.

(** [f"{path}.tmp"] *)
Definition tmp_path (path : string) : string := path +:+ ".tmp".

(** The steps of [write_json_atomic(path, data)]. *)
Definition write_ops (path : string) (d : dict) : list fs_op :=
  [Create (tmp_path path); Dump (tmp_path path) d;
   Fsync (tmp_path path); Replace (tmp_path path) path].

(** [os.open(path, O_CREAT | O_RDWR)]: creates the file when absent. *)
Definition touch (p : string) (fs : Fs) : Fs :=
  match fs !! p with
  | Some _ => fs
  | None => <[p := File Empty false]> fs
  end.

(* ===================================================================== *)
(** ** The environment and the state of a run                             *)
(* ===================================================================== *)

(** The attribute [status] of the response that [urlopen] returns: an HTTP
    response has the integer of its status line; a response that is not
    HTTP may have [None] there, or no such attribute. *)
Inductive status_attr :=
  | NoStatus            (** the response has no attribute [status] *)
  | StatusNone          (** the attribute is [None] *)
  | Status (n : Z).     (** the attribute is the integer [n] *)

(** What [urllib.request.urlopen] does with one request. *)
Inductive exchange :=
  | Response (status : status_attr)      (** it returns a response *)
  | HTTPError (code : Z) (text : string) (** it raises [HTTPError] with the
                                             integer [code]; [text] is
                                             [str(e)] *)
  | RequestFailure (text : string).      (** it raises anything else:
                                             refused, timeout, DNS, ... *)

(** What the call [subprocess.run(RESTART_CMD, capture_output=True,
    text=True)] does. *)
Inductive process :=
  | Exited (returncode : Z) (stdout stderr : string)
      (** the call returns: the command has ended with [returncode] and
          its output has been decoded *)
  | RunError (text : string).
      (** the call raises: the command cannot be started, or its output
          cannot be decoded as text, whatever its exit status; [text] is
          [str(e)] *)

(** What taking the lock does. *)
Inductive lock_outcome :=
  | NoLock          (** [import fcntl] or [os.open] raises *)
  | FlockBlocks     (** [flock] raises [BlockingIOError] *)
  | FlockFails      (** [flock] raises another exception *)
  | Locked (fd : Z). (** the lock is taken on descriptor [fd] *)

(** The oracles of one run. The streams are read from index 0. *)
Record Env := MkEnv {
  lock : lock_outcome;
  http : nat -> exchange;             (** the successive HTTP requests *)
  systemctl : nat -> process;         (** the successive restart commands *)
  clock : nat -> string;              (** the successive clock readings *)
  write_faults : nat -> option nat;   (** per atomic write: the failing step *)
  read_faults : nat -> bool           (** per [open(path, "r")]: it raises *)
}.

(** What the run does to the outside, in order. *)
Inductive event :=
  | EProbe (code : option Z)   (** an HTTP request and the status it gave *)
  | ERestart (ok : bool)       (** a restart command and whether it worked *)
  | ESleep (seconds : Z).      (** [time.sleep(seconds)] *)

Record World := MkWorld {
  files : Fs;
  trace : list event;
  env : Env
}.

(** State and exceptions. *)
Definition M (A : Type) : Type := World -> result A * World.

Definition ret {A} (a : A) : M A := fun w => (Ok a, w).

Definition bind {A B} (m : M A) (k : A -> M B) : M B :=
  fun w => match m w with
           | (Ok a, w') => k a w'
           | (Raise e, w') => (Raise e, w')
           end.

Definition raise {A} (e : exn) : M A := fun w => (Raise e, w).

Definition lift {A} (r : result A) : M A := fun w => (r, w).

#[global] Instance M_ret : MRet M := @ret.
#[global] Instance M_bind : MBind M := fun A B k m => bind m k.

Definition tl_stream {A} (f : nat -> A) : nat -> A := fun n => f (S n).

Definition gets {A} (f : World -> A) : M A := fun w => (Ok (f w), w).

Definition set_files (fs : Fs) : M unit :=
  fun w => (Ok tt, MkWorld fs (trace w) (env w)).

Definition emit (ev : event) : M unit :=
  fun w => (Ok tt, MkWorld (files w) (trace w ++ [ev]) (env w)).

(** Reading an oracle uses up its first element. *)
Definition pop_http (e : Env) : Env :=
  MkEnv (lock e) (tl_stream (http e)) (systemctl e) (clock e)
        (write_faults e) (read_faults e).

Definition pop_systemctl (e : Env) : Env :=
  MkEnv (lock e) (http e) (tl_stream (systemctl e)) (clock e)
        (write_faults e) (read_faults e).

Definition pop_clock (e : Env) : Env :=
  MkEnv (lock e) (http e) (systemctl e) (tl_stream (clock e))
        (write_faults e) (read_faults e).

Definition pop_write (e : Env) : Env :=
  MkEnv (lock e) (http e) (systemctl e) (clock e)
        (tl_stream (write_faults e)) (read_faults e).

Definition pop_read (e : Env) : Env :=
  MkEnv (lock e) (http e) (systemctl e) (clock e)
        (write_faults e) (tl_stream (read_faults e)).

Definition next_exchange : M exchange :=
  fun w => (Ok (http (env w) 0%nat),
            MkWorld (files w) (trace w) (pop_http (env w))).

Definition next_process : M process :=
  fun w => (Ok (systemctl (env w) 0%nat),
            MkWorld (files w) (trace w) (pop_systemctl (env w))).

Definition next_write_fault : M (option nat) :=
  fun w => (Ok (write_faults (env w) 0%nat),
            MkWorld (files w) (trace w) (pop_write (env w))).

Definition next_read_fault : M bool :=
  fun w => (Ok (read_faults (env w) 0%nat),
            MkWorld (files w) (trace w) (pop_read (env w))).

(* ===================================================================== *)
(** ** The functions of the script                                        *)
(* ===================================================================== *)

(** [datetime.now(timezone.utc).isoformat()] *)
Definition utc_now_iso : M string :=
  fun w => (Ok (clock (env w) 0%nat),
            MkWorld (files w) (trace w) (pop_clock (env w))).

(** The status code that one exchange yields, and the error string.
    [int(getattr(resp, "status", 200))] runs inside the [try]: on a status
    that is [None] the [TypeError] of [int] is caught by
    [except Exception]. *)
Definition probe_result (x : exchange) : option Z * option string :=
  match x with
  | Response NoStatus => (Some 200, None)
  | Response (Status n) => (Some n, None)
  | Response StatusNone =>
      (None,
       Some ("RequestError: " +:+
             "int() argument must be a string, a bytes-like object or a real number, not 'NoneType'"))
  | HTTPError code text => (Some code, Some ("HTTPError: " +:+ text))
  | RequestFailure text => (None, Some ("RequestError: " +:+ text))
  end.

(** [http_get_status(url, timeout)]: the pair (status code, error string),
    by the three exits of the [try]. *)
Definition http_get_status (url : string) (timeout : Z)
  : M (option Z * option string) :=
  x ← next_exchange;
  let r := probe_result x in
  emit (EProbe (fst r));;
  ret r.

(** A string stands for Python text in its UTF-8 encoding. *)
Definition utf8 (bytes : list nat) : string :=
  fold_right (fun n s => String (Ascii.ascii_of_nat n) s) EmptyString bytes.

(** The characters that [str.strip()] removes, those for which
    [str.isspace()] holds: U+0009 to U+000D, U+001C to U+0020, U+0085,
    U+00A0, U+1680, U+2000 to U+200A, U+2028, U+2029, U+202F, U+205F and
    U+3000. *)
Definition py_whitespace : list string :=
  (((fun n => utf8 [n]) <$> [9; 10; 11; 12; 13; 28; 29; 30; 31; 32])
   ++ [utf8 [194; 133]; utf8 [194; 160]; utf8 [225; 154; 128]]
   ++ ((fun n => utf8 [226; 128; n]) <$> seq 128 11)
   ++ [utf8 [226; 128; 168]; utf8 [226; 128; 169]; utf8 [226; 128; 175];
       utf8 [226; 129; 159]; utf8 [227; 128; 128]])%nat.

(** [s] without the prefix [p], when it starts with it. *)
Fixpoint drop_prefix (p s : string) : option string :=
  match p with
  | EmptyString => Some s
  | String a p' =>
      match s with
      | String b s' => if Ascii.eqb a b then drop_prefix p' s' else None
      | EmptyString => None
      end
  end.

(** [s] without its first character, when that is one of [blanks]. *)
Definition drop_blank (blanks : list string) (s : string) : option string :=
  fold_right (fun p rest => match drop_prefix p s with
                            | Some s' => Some s'
                            | None => rest
                            end) None blanks.

Fixpoint lstrip_with (blanks : list string) (fuel : nat) (s : string)
  : string :=
  match fuel with
  | O => s
  | S fuel' =>
      match drop_blank blanks s with
      | Some s' => lstrip_with blanks fuel' s'
      | None => s
      end
  end.

(** [s.lstrip()]; the length of [s] is fuel enough. *)
Definition lstrip (s : string) : string :=
  lstrip_with py_whitespace (String.length s) s.

(** [s.rstrip()], on the reversed bytes: an encoding read backwards at
    the end of the text is that character. *)
Definition rstrip (s : string) : string :=
  String.rev (lstrip_with (String.rev <$> py_whitespace) (String.length s)
                (String.rev s)).

(** [s.strip()] *)
Definition strip (s : string) : string := rstrip (lstrip s).

(** [a or b] on strings. *)
Definition str_or (a b : string) : string :=
  if String.eqb a "" then b else a.

(** [restart_service()]: the pair (ok, message). *)
Definition restart_service : M (bool * string) :=
  p ← next_process;
  let r := match p with
           | Exited rc out err =>
               if Z.eqb rc 0 then (true, "ok")
               else (false, "systemctl failed rc=" +:+ pretty rc +:+ ": "
                              +:+ strip (str_or err (str_or out "")))
           | RunError text => (false, "systemctl exception: " +:+ text)
           end in
  emit (ERestart (fst r));;
  ret r.

(** [read_json(path)]: whatever [json.load] gives, or [{}] when opening
    or parsing raises. *)
Definition read_json (path : string) : M json :=
  fault ← next_read_fault;
  fs ← gets files;
  ret (if fault : bool then JObj ∅
       else match fs !! path with
            | Some (File (Document j) _) => j
            | _ => JObj ∅
            end).

(** [write_json_atomic(path, data)] *)
Definition write_json_atomic (path : string) (d : dict) : M unit :=
  fault ← next_write_fault;
  fs ← gets files;
  let (r, fs') := run_ops (write_ops path d) fault fs in
  set_files fs';;
  lift r.

(** The local variables of the retry loop of [main]. *)
Record loop_state := MkLoop {
  attempts : list dict;
  wait : Z;
  succeeded : bool;
  restart_errors : list string
}.

(** [attempts[-1][key] = value]; [IndexError] on an empty list. *)
Definition setitem_last (key : string) (value : json) (l : list dict)
  : result (list dict) :=
  match reverse l with
  | [] => Raise (IndexError "list index out of range")
  | d :: before => Ok (reverse before ++ [<[key := value]> d])
  end.

Definition opt_int (o : option Z) : json :=
  match o with Some n => JInt n | None => JNull end.

Definition opt_str (o : option string) : json :=
  match o with Some s => JStr s | None => JNull end.

(** What [main] does once the lock is settled. *)
Inductive guard :=
  | AlreadyRunning
  | Proceed (lock_fd : option Z).

(** The lock block at the head of [main]. Opening the lock file creates
    it; only a blocked [flock] ends the run. *)
Definition acquire_lock : M guard :=
  l ← gets (fun w => lock (env w));
  fs ← gets files;
  match l with
  | NoLock => ret (Proceed None)
  | FlockBlocks => set_files (touch LOCK_FILE fs);; ret AlreadyRunning
  | FlockFails => set_files (touch LOCK_FILE fs);; ret (Proceed None)
  | Locked fd => set_files (touch LOCK_FILE fs);; ret (Proceed (Some fd))
  end.

(** How the body of a loop ends: in [break], or by reaching its end. *)
Inductive control (S : Type) :=
  | Break (s : S)
  | Continue (s : S).
Arguments Break {S} s.
Arguments Continue {S} s.

(** [for i in indices: body], on the local variables [s] of the loop. *)
Fixpoint for_each {I S} (indices : list I) (body : I -> S -> M (control S))
    (s : S) : M S :=
  match indices with
  | [] => ret s
  | i :: rest =>
      c ← body i s;
      match c with
      | Break s' => ret s'
      | Continue s' => for_each rest body s'
      end
  end.

(** [time.sleep(seconds)] *)
Definition sleep (seconds : Z) : M unit := emit (ESleep seconds).

Section Watchdog.

Variable int_of_str : string -> option Z.

(** [should_throttle()]: the pair (skip_run, throttle_state). *)
Definition should_throttle : M (bool * dict) :=
  v ← read_json THROTTLE_FILE;
  state ← lift (py_dict v);
  let last_failed := py_bool (dict_get state "last_failed" (JBool false)) in
  if negb last_failed then
    ret (false, <["counter" := JInt 0]> state)
  else
    c ← lift (py_int int_of_str (dict_get state "counter" (JInt 0)));
    let counter := c + 1 in
    let state := <["counter" := JInt counter]> state in
    if negb (Z.eqb (counter mod RUN_EVERY_N_AFTER_FAILURE) 0) then
      ret (true, state)
    else
      ret (false, state).

(** [update_throttle_state(state, last_failed)] *)
Definition update_throttle_state (state : dict) (last_failed : bool) : M unit :=
  let state := <["last_failed" := JBool last_failed]> state in
  let state := if negb last_failed then <["counter" := JInt 0]> state
               else state in
  now ← utc_now_iso;
  write_json_atomic THROTTLE_FILE (<["updated_at" := JStr now]> state).

(** [write_status(succeeded, details)]: the keys of [details] win. *)
Definition write_status (succeeded : bool) (details : dict) : M unit :=
  now ← utc_now_iso;
  let payload :=
    details ∪ <["updated_at" := JStr now]>
                (<["succeeded" := JBool succeeded]> ∅) in
  write_json_atomic STATUS_FILE payload.

(** The body of [for i in range(1, MAX_RETRIES + 1)]: one attempt. It
    ends in [break] on a 200 and falls through to the next [i]
    otherwise. *)
Definition attempt (i : Z) (ls : loop_state) : M (control loop_state) :=
  '(code, err) ← http_get_status URL TIMEOUT_SECONDS;
  now ← utc_now_iso;
  let attempts :=
    attempts ls ++
      [<["try" := JInt i]>
         (<["http_status" := opt_int code]>
            (<["http_error" := opt_str err]>
               (<["checked_at" := JStr now]> ∅)))] in
  if bool_decide (code = Some 200) then
    ret (Break (MkLoop attempts (wait ls) true (restart_errors ls)))
  else
    '(ok, msg) ← restart_service;
    attempts ← lift (setitem_last "restart_called" (JBool true) attempts);
    attempts ← lift (setitem_last "restart_ok" (JBool ok) attempts);
    attempts ← lift (setitem_last "restart_msg" (JStr msg) attempts);
    let restart_errors :=
      if negb ok then restart_errors ls ++ [msg] else restart_errors ls in
    wait ← (if Z.ltb i MAX_RETRIES then
              sleep (wait ls);;
              ret (wait ls + WAIT_INCREMENT_SECONDS)
            else ret (wait ls));
    ret (Continue (MkLoop attempts wait (succeeded ls) restart_errors)).

(** The loop over the values of [i] still to come. *)
Definition retry_loop (indices : list Z) (ls : loop_state) : M loop_state :=
  for_each indices attempt ls.

Definition skip_details : dict :=
  <["skipped_due_to_throttle" := JBool true]>
    (<["note" := JStr ("Previous run failed; running only 1 in "
                         +:+ pretty RUN_EVERY_N_AFTER_FAILURE
                         +:+ " invocations.")]> ∅).

Definition run_details (ls : loop_state) : dict :=
  <["url" := JStr URL]>
    (<["service" := JStr SERVICE_NAME]>
       (<["max_retries" := JInt MAX_RETRIES]>
          (<["base_wait_seconds" := JInt BASE_WAIT_SECONDS]>
             (<["wait_increment_seconds" := JInt WAIT_INCREMENT_SECONDS]>
                (<["attempts" := JArr (JObj <$> attempts ls)]>
                   (<["restart_errors" := JArr (JStr <$> restart_errors ls)]>
                      (<["skipped_due_to_throttle" := JBool false]> ∅))))))).

(** The loop as [main] starts it. *)
Definition run_attempts : M loop_state :=
  retry_loop (seqZ 1 MAX_RETRIES) (MkLoop [] BASE_WAIT_SECONDS false []).

(** [main()]: the exit status. Closing the lock descriptor at the end
    changes nothing that is modelled, and an exception of [os.close] is
    swallowed. *)
Definition main : M Z :=
  g ← acquire_lock;
  match g with
  | AlreadyRunning => ret 0
  | Proceed lock_fd =>
      '(skip, throttle_state) ← should_throttle;
      if skip : bool then
        update_throttle_state throttle_state true;;
        write_status false skip_details;;
        ret 0
      else
        ls ← run_attempts;
        write_status (succeeded ls) (run_details ls);;
        update_throttle_state throttle_state (negb (succeeded ls));;
        ret (if succeeded ls then 0 else 1)
  end.

(** One run of the script from cron: a fresh environment on the files
    the earlier runs left. The report is the outcome of [main] and what
    the run did. *)
Definition invoke (e : Env) (fs : Fs) : (result Z * list event) * Fs :=
  let (r, w) := main (MkWorld fs [] e) in
  ((r, trace w), files w).

(** Successive runs, one environment each. *)
Fixpoint cron (es : list Env) (fs : Fs) : list (result Z * list event) * Fs :=
  match es with
  | [] => ([], fs)
  | e :: rest =>
      let (rep, fs1) := invoke e fs in
      let (reps, fs2) := cron rest fs1 in
      (rep :: reps, fs2)
  end.

End Watchdog.

(* ===================================================================== *)
(** ** Sample runs                                                        *)
(* ===================================================================== *)

(** An [int] parser that rejects every string. *)
Definition no_int (_ : string) : option Z := None.

(** An environment in which every restart works and the clock stands. *)
Definition env_of (l : lock_outcome) (h : nat -> exchange)
    (wf : nat -> option nat) : Env :=
  MkEnv l h (fun _ => Exited 0 "" "") (fun _ => "2026-01-01T00:00:00+00:00")
        wf (fun _ => false).

Definition always_500 : nat -> exchange :=
  fun _ => HTTPError 500 "HTTP Error 500: Internal Server Error".

Definition always_200 : nat -> exchange := fun _ => Response (Status 200).


Definition world_200 : World :=
  MkWorld ∅ [] (env_of (Locked 3) always_200 (fun _ => None)).

(** A first run ever, against a service that answers 500. *)
Definition world_500 : World :=
  MkWorld ∅ [] (env_of (Locked 3) always_500 (fun _ => None)).

(** A throttle file that holds the JSON text [[1]]. *)
Definition world_array_throttle : World :=
  MkWorld (<[THROTTLE_FILE := File (Document (JArr [JInt 1])) true]> ∅) []
          (env_of (Locked 3) always_200 (fun _ => None)).

(** A throttle file in the middle of a failure streak. *)
Definition streak_state : dict :=
  <["last_failed" := JBool true]> (<["counter" := JInt 3]> ∅).

Definition streak_files : Fs :=
  <[THROTTLE_FILE := File (Document (JObj streak_state)) true]> ∅.

Definition world_streak : World :=
  MkWorld streak_files [] (env_of (Locked 3) always_500 (fun _ => None)).

(** A service that answers 500 once and 200 from then on. *)
Definition recovers_after_one : nat -> exchange :=
  fun k => match k with
           | O => HTTPError 500 "HTTP Error 500: Internal Server Error"
           | S _ => Response (Status 200)
           end.

Definition world_recovers : World :=
  MkWorld ∅ [] (env_of (Locked 3) recovers_after_one (fun _ => None)).

(** A response that is not HTTP: its status is [None]. *)
Definition world_status_none : World :=
  MkWorld ∅ []
    (env_of (Locked 3) (fun _ => Response StatusNone) (fun _ => None)).


(** A service that is down, and a restart command that fails. *)
Definition always_refused : nat -> exchange :=
  fun _ => RequestFailure "[Errno 111] Connection refused".

Definition world_restart_fails : World :=
  MkWorld ∅ []
    (MkEnv (Locked 3) always_refused
       (fun _ => Exited 5 "" "Unit crowsnest.service not found.")
       (fun _ => "2026-01-01T00:00:00+00:00") (fun _ => None) (fun _ => false)).

Definition world_refused : World :=
  MkWorld ∅ [] (env_of (Locked 3) always_refused (fun _ => None)).

(** A disk on which every atomic write is cut short at step [k]. *)
Definition world_500_slow_disk (k : nat) : World :=
  MkWorld ∅ [] (env_of (Locked 3) always_500 (fun _ => Some k)).

(** A run that finds the lock held. *)
Definition world_locked_out : World :=
  MkWorld streak_files [] (env_of FlockBlocks always_500 (fun _ => None)).

(** A throttle file whose counter is [null], in a failure streak. *)
Definition null_counter_state : dict :=
  <["last_failed" := JBool true]> (<["counter" := JNull]> ∅).

Definition world_null_counter : World :=
  MkWorld (<[THROTTLE_FILE := File (Document (JObj null_counter_state)) true]> ∅)
          [] (env_of (Locked 3) always_200 (fun _ => None)).

(** A throttle file cut short by an earlier crash. *)
Definition world_torn_throttle : World :=
  MkWorld (<[THROTTLE_FILE := File (Prefix streak_state) false]> ∅)
          [] (env_of (Locked 3) always_500 (fun _ => None)).

(** A healthy service, but the second write of the run is cut short. *)
Definition world_second_write_fails : World :=
  MkWorld streak_files []
    (MkEnv (Locked 3) always_200 (fun _ => Exited 0 "" "")
       (fun _ => "2026-01-01T00:00:00+00:00")
       (fun n => match n with 1%nat => Some 1%nat | _ => None end)
       (fun _ => false)).

(* ===================================================================== *)
(** ** Vocabulary of the properties                                       *)
(* ===================================================================== *)

#[global] Instance lock_outcome_eq_dec : EqDecision lock_outcome.
Proof. solve_decision. Defined.


(** The status codes of the probes of a trace, its restarts and its
    sleeps, each in order. *)
Definition probes (tr : list event) : list (option Z) :=
  omap (λ ev, match ev with EProbe c => Some c | _ => None end) tr.

Definition restarts (tr : list event) : list bool :=
  omap (λ ev, match ev with ERestart ok => Some ok | _ => None end) tr.

Definition sleeps (tr : list event) : list Z :=
  omap (λ ev, match ev with ESleep s => Some s | _ => None end) tr.

(** The status code of the first exchange still to come. *)
Definition next_code (h : nat -> exchange) : option Z :=
  fst (probe_result (h 0%nat)).

(** What one attempt adds to the trace when its probe is not a 200. *)
Definition miss_events (i : Z) (code : option Z) (ok : bool) (wt : Z)
  : list event :=
  EProbe code :: ERestart ok ::
    (if Z.ltb i MAX_RETRIES then [ESleep wt] else []).

Definition next_wait (i wt : Z) : Z :=
  if Z.ltb i MAX_RETRIES then wt + WAIT_INCREMENT_SECONDS else wt.

(** The environments that differ only in the oracles a probe cycle reads. *)
Definition same_io (e e' : Env) : Prop :=
  lock e' = lock e ∧ write_faults e' = write_faults e
  ∧ read_faults e' = read_faults e.

(** The traces of the loop, by the exchanges [h] it meets, the indices
    it runs over and the wait it starts with; the flag tells whether it
    left by [break]. *)
Inductive loop_run : (nat -> exchange) -> list Z -> Z -> list event -> bool -> Prop :=
  | run_done h wt :
      loop_run h [] wt [] false
  | run_hit h i rest wt :
      next_code h = Some 200 →
      loop_run h (i :: rest) wt [EProbe (Some 200)] true
  | run_miss h i rest wt ok tr b :
      next_code h ≠ Some 200 →
      loop_run (tl_stream h) rest (next_wait i wt) tr b →
      loop_run h (i :: rest) wt (miss_events i (next_code h) ok wt ++ tr) b.

(** A fault index beyond the last step is no fault. *)
Definition faulty (o : option nat) : bool :=
  match o with
  | Some k => (k <? 4)%nat
  | None => false
  end.

(** What [read_json(path)] gives in a world. *)
Definition loaded (w : World) (path : string) : json :=
  if read_faults (env w) 0%nat then JObj ∅
  else match files w !! path with
       | Some (File (Document j) _) => j
       | _ => JObj ∅
       end.

(** The dict that [update_throttle_state] writes. *)
Definition stamped (state : dict) (last_failed : bool) (now : string) : dict :=
  <["updated_at" := JStr now]>
    (if negb last_failed
     then <["counter" := JInt 0]> (<["last_failed" := JBool last_failed]> state)
     else <["last_failed" := JBool last_failed]> state).

Section Gate.

Variable int_of_str : string -> option Z.

(** The decision of [should_throttle] on the value it has read. *)
Definition gate (v : json) : result (bool * dict) :=
  match py_dict v with
  | Raise e => Raise e
  | Ok state =>
      if py_bool (dict_get state "last_failed" (JBool false)) then
        match py_int int_of_str (dict_get state "counter" (JInt 0)) with
        | Raise e => Raise e
        | Ok c =>
            Ok (negb (Z.eqb ((c + 1) mod RUN_EVERY_N_AFTER_FAILURE) 0),
                <["counter" := JInt (c + 1)]> state)
        end
      else Ok (false, <["counter" := JInt 0]> state)
  end.

(** The fields of a persisted throttle state, as [should_throttle]
    reads them. *)
Definition st_last_failed (state : dict) : bool :=
  py_bool (dict_get state "last_failed" (JBool false)).

Definition st_counter (state : dict) : result Z :=
  py_int int_of_str (dict_get state "counter" (JInt 0)).

End Gate.

(** A run that gets past the lock, meets no I/O fault and no 200. *)
Definition failing (e : Env) : Prop :=
  lock e ≠ FlockBlocks
  ∧ read_faults e 0%nat = false
  ∧ faulty (write_faults e 0%nat) = false
  ∧ faulty (write_faults e 1%nat) = false
  ∧ ∀ k, (k < 5)%nat → fst (probe_result (http e k)) ≠ Some 200.

(** A run went past the throttle gate when it probed. *)
Definition proceeded (report : result Z * list event) : bool :=
  match snd report with
  | [] => false
  | _ :: _ => true
  end.

(** The pair that [restart_service] returns for one outcome of the
    restart command. *)
Definition restart_result (p : process) : bool * string :=
  match p with
  | Exited rc out err =>
      if Z.eqb rc 0 then (true, "ok")
      else (false, "systemctl failed rc=" +:+ pretty rc +:+ ": "
                     +:+ strip (str_or err (str_or out "")))
  | RunError text => (false, "systemctl exception: " +:+ text)
  end.

(** The record that an attempt appends after its probe. *)
Definition attempt_record (i : Z) (x : exchange) (now : string) : dict :=
  <["try" := JInt i]>
    (<["http_status" := opt_int (fst (probe_result x))]>
       (<["http_error" := opt_str (snd (probe_result x))]>
          (<["checked_at" := JStr now]> ∅))).

(** The same record once the restart has been noted on it. *)
Definition restarted_record (d : dict) (r : bool * string) : dict :=
  <["restart_msg" := JStr (snd r)]>
    (<["restart_ok" := JBool (fst r)]>
       (<["restart_called" := JBool true]> d)).

(** The record of the [k]-th attempt of a run, by what the environment
    gave it. *)
Definition cycle_record (x : exchange) (p : process) (now : string) (i : Z)
  : dict :=
  if bool_decide (fst (probe_result x) = Some 200) then attempt_record i x now
  else restarted_record (attempt_record i x now) (restart_result p).

(** The messages of the restarts that failed. *)
Definition failure_messages (rs : list (bool * string)) : list string :=
  omap (λ r : bool * string, if fst r then None else Some (snd r)) rs.

(** The same environment with another outcome for the lock. *)
Definition set_lock (l : lock_outcome) (e : Env) : Env :=
  MkEnv l (http e) (systemctl e) (clock e) (write_faults e) (read_faults e).

Section AfterLock.
Variable int_of_str : string -> option Z.

(** What [main] does once it has decided to proceed. *)
Definition after_lock : M Z :=
  '(skip, throttle_state) ← should_throttle int_of_str;
  if skip : bool then
    update_throttle_state throttle_state true;;
    write_status false skip_details;;
    ret 0
  else
    ls ← run_attempts;
    write_status (succeeded ls) (run_details ls);;
    update_throttle_state throttle_state (negb (succeeded ls));;
    ret (if succeeded ls then 0 else 1).
End AfterLock.

(** The dict that [write_status] writes. *)
Definition status_payload (ok : bool) (details : dict) (now : string) : dict :=
  details ∪ <["updated_at" := JStr now]> (<["succeeded" := JBool ok]> ∅).

Section Script.
Variable int_of_str : string -> option Z.

(** [raise SystemExit(main())] at the foot of the script: the exit status
    of the process is the value [main] returns; an exception that leaves
    [main] ends the interpreter with a traceback and status 1. *)
Definition script (w : World) : Z * World :=
  match main int_of_str w with
  | (Ok code, w') => (code, w')
  | (Raise _, w') => (1, w')
  end.
End Script.

(* ===================================================================== *)
(** ** The primitives, as equations                                       *)
(* ===================================================================== *)

Lemma tmp_path_fresh path : tmp_path path ≠ path.
Proof.
  unfold tmp_path. induction path as [|a p IH]; simpl.
  - discriminate.
  - intros H. injection H as H. exact (IH H).
Qed.

Ltac mred :=
  unfold mbind, M_bind, mret, M_ret, bind, ret, lift, raise, gets, set_files,
    sleep, emit, next_exchange, next_process, next_write_fault,
    next_read_fault, utc_now_iso;
  cbv beta iota.

Lemma write_json_atomic_eq path d w :
  write_json_atomic path d w =
  (fst (run_ops (write_ops path d) (write_faults (env w) 0%nat) (files w)),
   MkWorld (snd (run_ops (write_ops path d) (write_faults (env w) 0%nat) (files w)))
           (trace w) (pop_write (env w))).
Proof.
  unfold write_json_atomic. mred. cbn [files trace env].
  destruct (run_ops _ _ _) as [r fs'] eqn:E. mred. cbn [fst snd files trace env]. destruct r as [[]|]; reflexivity.
Qed.

Lemma read_json_eq path w :
  read_json path w =
  (Ok (if read_faults (env w) 0%nat then JObj ∅
       else match files w !! path with
            | Some (File (Document j) _) => j
            | _ => JObj ∅
            end),
   MkWorld (files w) (trace w) (pop_read (env w))).
Proof. reflexivity. Qed.

Lemma http_get_status_eq url t w :
  http_get_status url t w =
  (Ok (probe_result (http (env w) 0%nat)),
   MkWorld (files w) (trace w ++ [EProbe (fst (probe_result (http (env w) 0%nat)))])
           (pop_http (env w))).
Proof. reflexivity. Qed.

Lemma restart_service_frame w :
  ∃ ok msg, restart_service w =
  (Ok (ok, msg), MkWorld (files w) (trace w ++ [ERestart ok]) (pop_systemctl (env w))).
Proof. unfold restart_service. mred. eexists _, _. cbn [files trace env]. 
 rewrite <- surjective_pairing. reflexivity. Qed.

Lemma setitem_last_snoc key value l d :
  setitem_last key value (l ++ [d]) = Ok (l ++ [<[key := value]> d]).
Proof.
  unfold setitem_last. rewrite reverse_snoc. by rewrite reverse_involutive.
Qed.

Lemma attempt_hit i ls w :
  next_code (http (env w)) = Some 200 →
  ∃ ls' e',
    attempt i ls w
      = (Ok (Break ls'), MkWorld (files w) (trace w ++ [EProbe (Some 200)]) e')
    ∧ succeeded ls' = true
    ∧ length (attempts ls') = S (length (attempts ls))
    ∧ same_io (env w) e'.
Proof.
  unfold next_code. intros Hc. unfold attempt. mred. rewrite http_get_status_eq.
  destruct (probe_result (http (env w) 0%nat)) as [code err] eqn:E.
  cbn [fst] in Hc. subst code. cbn [fst files trace env].
  rewrite bool_decide_eq_true_2 by done.
  eexists _, _. split; [reflexivity|]. cbn.
  rewrite length_app. cbn. unfold same_io. cbn. repeat split; lia.
Qed.

Lemma attempt_miss i ls w :
  next_code (http (env w)) ≠ Some 200 →
  ∃ ok ls' e',
    attempt i ls w
      = (Ok (Continue ls'),
         MkWorld (files w)
           (trace w ++ miss_events i (next_code (http (env w))) ok (wait ls)) e')
    ∧ succeeded ls' = succeeded ls
    ∧ length (attempts ls') = S (length (attempts ls))
    ∧ wait ls' = next_wait i (wait ls)
    ∧ http e' = tl_stream (http (env w))
    ∧ same_io (env w) e'.
Proof.
  unfold next_code, miss_events, next_wait. intros Hc.
  unfold attempt. mred. rewrite http_get_status_eq.
  destruct (probe_result (http (env w) 0%nat)) as [code err] eqn:E.
  cbn [fst] in Hc. cbn [fst files trace env].
  rewrite bool_decide_eq_false_2 by done.
  match goal with |- context [restart_service ?w1] =>
    destruct (restart_service_frame w1) as (ok & msg & ->) end.
  rewrite !setitem_last_snoc. cbn [files trace env].
  exists ok.
  destruct (Z.ltb i MAX_RETRIES); cbn [files trace env];
    rewrite <- !app_assoc; cbn [app];
    (eexists _, _; split; [reflexivity|]);
    cbn; rewrite length_app; unfold same_io; cbn; repeat split; lia.
Qed.

Lemma retry_loop_run indices : ∀ ls w,
  ∃ ls' e' tr b,
    retry_loop indices ls w = (Ok ls', MkWorld (files w) (trace w ++ tr) e')
    ∧ loop_run (http (env w)) indices (wait ls) tr b
    ∧ succeeded ls' = b || succeeded ls
    ∧ length (attempts ls') = (length (attempts ls) + length (probes tr))%nat
    ∧ same_io (env w) e'.
Proof.
  induction indices as [|i rest IH]; intros ls w.
  - exists ls, (env w), [], false. rewrite app_nil_r.
    repeat split; [by destruct w | constructor | cbn; lia].
  - unfold retry_loop. cbn [for_each]. mred.
    destruct (decide (next_code (http (env w)) = Some 200)) as [Hc|Hc].
    + destruct (attempt_hit i ls w Hc) as (ls' & e' & -> & Hs & Hl & Hio).
      exists ls', e', [EProbe (Some 200)], true.
      repeat split; try apply Hio; [by constructor | by rewrite Hs | rewrite Hl; cbn; lia].
    + destruct (attempt_miss i ls w Hc)
        as (ok & ls1 & e1 & -> & Hs & Hl & Hw & Hh & Hio).
      fold (retry_loop rest ls1).
      destruct (IH ls1 (MkWorld (files w)
        (trace w ++ miss_events i (next_code (http (env w))) ok (wait ls)) e1))
        as (ls' & e' & tr & b & -> & Hrun & Hs' & Hl' & Hio').
      cbn [files trace env] in *.
      exists ls', e', (miss_events i (next_code (http (env w))) ok (wait ls) ++ tr), b.
      rewrite app_assoc. split; [reflexivity|].
      split; [constructor; [done | by rewrite <- Hh, <- Hw] |].
      split; [congruence|].
      split.
      * rewrite Hl', Hl. unfold miss_events, probes.
        destruct (Z.ltb i MAX_RETRIES); cbn; lia.
      * destruct Hio as (?&?&?), Hio' as (?&?&?). unfold same_io.
        repeat split; congruence.
Qed.

(* ===================================================================== *)
(** ** The file system steps of an atomic write                           *)
(* ===================================================================== *)

Lemma run_write_ok path d o fs :
  faulty o = false →
  fst (run_ops (write_ops path d) o fs) = Ok tt
  ∧ snd (run_ops (write_ops path d) o fs) !! path
      = Some (File (Document (JObj d)) true)
  ∧ ∀ q, q ≠ path → q ≠ tmp_path path →
      snd (run_ops (write_ops path d) o fs) !! q = fs !! q.
Proof.
  intros Ho. pose proof (tmp_path_fresh path) as Ht.
  assert (run_ops (write_ops path d) o fs
          = (Ok tt, <[path := File (Document (JObj d)) true]>
                      (delete (tmp_path path)
                         (alter (λ f, File (data f) true) (tmp_path path)
                            (<[tmp_path path := File (Document (JObj d)) false]>
                               (<[tmp_path path := File Empty false]> fs)))))) as ->.
  { destruct o as [[|[|[|[|k]]]]|]; try discriminate Ho;
      cbn; rewrite lookup_alter_eq, lookup_insert_eq; reflexivity. }
  cbn [fst snd]. split; [done|]. split; [by rewrite lookup_insert_eq|].
  intros q Hq Hq'. rewrite lookup_insert_ne by done.
  rewrite lookup_delete_ne by done. rewrite lookup_alter_ne by done.
  by rewrite !lookup_insert_ne by done.
Qed.

Lemma run_write_fail path d o fs :
  faulty o = true →
  fst (run_ops (write_ops path d) o fs) = Raise (OSError "I/O error")
  ∧ ∀ q, q ≠ tmp_path path →
      snd (run_ops (write_ops path d) o fs) !! q = fs !! q.
Proof.
  intros Ho.
  destruct o as [[|[|[|[|k]]]]|]; try discriminate Ho; cbn;
    (split; [done|]); intros q Hq;
    rewrite ?lookup_alter_ne by done; by rewrite ?lookup_insert_ne by done.
Qed.

(* ===================================================================== *)
(** ** The four ways through [main]                                       *)
(* ===================================================================== *)

Lemma acquire_lock_frame w :
  ∃ g fs',
    acquire_lock w = (Ok g, MkWorld fs' (trace w) (env w))
    ∧ (g = AlreadyRunning ↔ lock (env w) = FlockBlocks)
    ∧ ∀ q, q ≠ LOCK_FILE → fs' !! q = files w !! q.
Proof.
  destruct w as [fs tr e]. unfold acquire_lock. mred. cbn [files trace env].
  assert (∀ q, q ≠ LOCK_FILE → touch LOCK_FILE fs !! q = fs !! q) as Ht.
  { intros q Hq. unfold touch. destruct (fs !! LOCK_FILE); [done|].
    by rewrite lookup_insert_ne. }
  destruct (lock e); mred; cbn [files trace env];
    eexists _, _; (split; [reflexivity|]); split; try done; by split.
Qed.

Lemma update_throttle_state_eq state lf w :
  update_throttle_state state lf w =
  write_json_atomic THROTTLE_FILE (stamped state lf (clock (env w) 0%nat))
    (MkWorld (files w) (trace w) (pop_clock (env w))).
Proof. reflexivity. Qed.

Lemma write_status_eq ok details w :
  write_status ok details w =
  write_json_atomic STATUS_FILE
    (details ∪ <["updated_at" := JStr (clock (env w) 0%nat)]>
                 (<["succeeded" := JBool ok]> ∅))
    (MkWorld (files w) (trace w) (pop_clock (env w))).
Proof. reflexivity. Qed.

Section Paths.
Variable int_of_str : string -> option Z.

Lemma should_throttle_eq w :
  should_throttle int_of_str w =
  (gate int_of_str (loaded w THROTTLE_FILE),
   MkWorld (files w) (trace w) (pop_read (env w))).
Proof.
  unfold should_throttle. mred. rewrite read_json_eq. fold (loaded w THROTTLE_FILE).
  unfold gate. destruct (py_dict _) as [state|e]; [|reflexivity].
  destruct (py_bool _); cbn [negb]; [|reflexivity].
  destruct (py_int _ _) as [c|e]; [|reflexivity].
  destruct (Z.eqb _ _); reflexivity.
Qed.

Lemma main_locked_out w :
  lock (env w) = FlockBlocks →
  ∃ fs', main int_of_str w = (Ok 0, MkWorld fs' (trace w) (env w))
         ∧ ∀ q, q ≠ LOCK_FILE → fs' !! q = files w !! q.
Proof.
  intros Hl. unfold main. mred.
  destruct (acquire_lock_frame w) as (g & fs' & -> & Hg & Hfs).
  apply Hg in Hl. subst g. by exists fs'.
Qed.

Lemma loaded_after_lock w fs' :
  (∀ q, q ≠ LOCK_FILE → fs' !! q = files w !! q) →
  loaded (MkWorld fs' (trace w) (env w)) THROTTLE_FILE = loaded w THROTTLE_FILE.
Proof. intros H. unfold loaded. cbn [files env]. by rewrite H. Qed.

Lemma main_gate_raises w e :
  lock (env w) ≠ FlockBlocks →
  gate int_of_str (loaded w THROTTLE_FILE) = Raise e →
  ∃ fs' e', main int_of_str w = (Raise e, MkWorld fs' (trace w) e')
         ∧ ∀ q, q ≠ LOCK_FILE → fs' !! q = files w !! q.
Proof.
  intros Hl Hg. unfold main. mred.
  destruct (acquire_lock_frame w) as (g & fs' & -> & Hgd & Hfs).
  destruct g as [|fd]; [by destruct Hl; apply Hgd|].
  rewrite should_throttle_eq, loaded_after_lock, Hg by done.
  cbn [files trace env]. by eexists _, _.
Qed.

Lemma main_skipped w state :
  lock (env w) ≠ FlockBlocks →
  gate int_of_str (loaded w THROTTLE_FILE) = Ok (true, state) →
  ∃ fs' e',
    main int_of_str w
      = (if faulty (write_faults (env w) 0%nat)
            || faulty (write_faults (env w) 1%nat)
         then Raise (OSError "I/O error") else Ok 0,
         MkWorld fs' (trace w) e')
    ∧ (faulty (write_faults (env w) 0%nat) = false →
       fs' !! THROTTLE_FILE
         = Some (File (Document (JObj (stamped state true (clock (env w) 0%nat)))) true))
    ∧ (faulty (write_faults (env w) 0%nat) = false →
       faulty (write_faults (env w) 1%nat) = false →
       ∃ d, fs' !! STATUS_FILE = Some (File (Document (JObj d)) true)
            ∧ d !! "succeeded" = Some (JBool false)
            ∧ d !! "skipped_due_to_throttle" = Some (JBool true)).
Proof.
  intros Hl Hg. unfold main. mred.
  destruct (acquire_lock_frame w) as (g & fs1 & -> & Hgd & Hfs).
  destruct g as [|fd]; [by destruct Hl; apply Hgd|].
  rewrite should_throttle_eq, loaded_after_lock, Hg by done.
  cbn [files trace env].
  rewrite update_throttle_state_eq, write_json_atomic_eq.
  cbn [files trace env pop_read pop_clock pop_write write_faults clock].
  destruct (faulty (write_faults (env w) 0%nat)) eqn:F0.
  - destruct (run_write_fail THROTTLE_FILE
                (stamped state true (clock (env w) 0%nat)) _ fs1 F0) as [-> _].
    cbn [orb]. eexists _, _. split; [reflexivity|]. split; intros; discriminate.
  - destruct (run_write_ok THROTTLE_FILE
                (stamped state true (clock (env w) 0%nat)) _ fs1 F0)
      as (-> & Hnew & Hother).
    cbn [orb]. rewrite write_status_eq, write_json_atomic_eq.
    cbn [files trace env pop_read pop_clock pop_write write_faults clock tl_stream].
    destruct (faulty (write_faults (env w) 1%nat)) eqn:F1.
    + match goal with |- context [run_ops (write_ops STATUS_FILE ?d) ?o ?fs] =>
        destruct (run_write_fail STATUS_FILE d o fs F1) as [-> Hs] end.
      eexists _, _. split; [reflexivity|]. split; [|intros; discriminate].
      intros _. by rewrite Hs.
    + match goal with |- context [run_ops (write_ops STATUS_FILE ?d) ?o ?fs] =>
        destruct (run_write_ok STATUS_FILE d o fs F1) as (-> & Hs & Hso) end.
      eexists _, _. split; [reflexivity|]. split.
      * intros _. by rewrite Hso.
      * intros _ _. eexists. split; [exact Hs|]. split; reflexivity.
Qed.

Lemma main_ran w state :
  lock (env w) ≠ FlockBlocks →
  gate int_of_str (loaded w THROTTLE_FILE) = Ok (false, state) →
  ∃ (tr : list event) (b : bool) fs' e',
    main int_of_str w
      = (if faulty (write_faults (env w) 0%nat)
            || faulty (write_faults (env w) 1%nat)
         then Raise (OSError "I/O error") else Ok (if b then 0 else 1),
         MkWorld fs' (trace w ++ tr) e')
    ∧ loop_run (http (env w)) (seqZ 1 MAX_RETRIES) BASE_WAIT_SECONDS tr b
    ∧ (faulty (write_faults (env w) 0%nat) = false →
       ∃ d, fs' !! STATUS_FILE = Some (File (Document (JObj d)) true)
            ∧ d !! "succeeded" = Some (JBool b)
            ∧ d !! "skipped_due_to_throttle" = Some (JBool false))
    ∧ (faulty (write_faults (env w) 0%nat) = false →
       faulty (write_faults (env w) 1%nat) = false →
       ∃ now, fs' !! THROTTLE_FILE
         = Some (File (Document (JObj (stamped state (negb b) now))) true)).
Proof.
  intros Hl Hg. unfold main. mred.
  destruct (acquire_lock_frame w) as (g & fs1 & -> & Hgd & Hfs).
  destruct g as [|fd]; [by destruct Hl; apply Hgd|].
  rewrite should_throttle_eq, loaded_after_lock, Hg by done.
  cbn [files trace env]. unfold run_attempts.
  match goal with |- context [retry_loop ?ix ?ls ?w1] =>
    destruct (retry_loop_run ix ls w1)
      as (ls' & e' & tr & b & -> & Hrun & Hs & _ & Hio) end.
  cbn [files trace env pop_read http wait succeeded] in *.
  rewrite orb_false_r in Hs. subst b.
  destruct Hio as (_ & Hwf & _). cbn [pop_read write_faults] in Hwf.
  exists tr, (succeeded ls').
  rewrite write_status_eq, write_json_atomic_eq.
  cbn [files trace env pop_clock write_faults]. rewrite Hwf.
  destruct (faulty (write_faults (env w) 0%nat)) eqn:F0.
  - match goal with |- context [run_ops (write_ops STATUS_FILE ?d) ?o ?fs] =>
      destruct (run_write_fail STATUS_FILE d o fs F0) as [-> _] end.
    cbn [orb]. eexists _, _. split; [reflexivity|].
    split; [done|]. split; intros; discriminate.
  - match goal with |- context [run_ops (write_ops STATUS_FILE ?d) ?o ?fs] =>
      destruct (run_write_ok STATUS_FILE d o fs F0) as (-> & Hs & Hso) end.
    cbn [orb]. rewrite update_throttle_state_eq, write_json_atomic_eq.
    cbn [files trace env pop_clock pop_write write_faults clock tl_stream].
    rewrite Hwf.
    destruct (faulty (write_faults (env w) 1%nat)) eqn:F1.
    + match goal with |- context [run_ops (write_ops THROTTLE_FILE ?d) ?o ?fs] =>
        destruct (run_write_fail THROTTLE_FILE d o fs F1) as [-> Ht] end.
      eexists _, _. split; [reflexivity|]. split; [done|].
      split; [|intros; discriminate].
      intros _. rewrite Ht by done. eexists. split; [exact Hs|].
      split; reflexivity.
    + match goal with |- context [run_ops (write_ops THROTTLE_FILE ?d) ?o ?fs] =>
        destruct (run_write_ok THROTTLE_FILE d o fs F1) as (-> & Ht & Hto) end.
      eexists _, _. split; [reflexivity|]. split; [done|]. split.
      * intros _. rewrite Hto by done. eexists. split; [exact Hs|].
        split; reflexivity.
      * intros _ _. eexists. exact Ht.
Qed.
End Paths.

(* ===================================================================== *)
(** ** The traces of the retry loop                                       *)
(* ===================================================================== *)

Lemma probes_miss i c ok wt tr :
  probes (miss_events i c ok wt ++ tr) = c :: probes tr.
Proof. unfold miss_events, probes. by destruct (Z.ltb i MAX_RETRIES). Qed.

Lemma sleeps_miss i c ok wt tr :
  sleeps (miss_events i c ok wt ++ tr)
  = (if Z.ltb i MAX_RETRIES then [wt] else []) ++ sleeps tr.
Proof. unfold miss_events, sleeps. by destruct (Z.ltb i MAX_RETRIES). Qed.

Lemma restarts_miss i c ok wt tr :
  restarts (miss_events i c ok wt ++ tr) = ok :: restarts tr.
Proof. unfold miss_events, restarts. by destruct (Z.ltb i MAX_RETRIES). Qed.

(** The loop probes at most once per index. *)
Lemma loop_run_bound h ix wt tr b :
  loop_run h ix wt tr b → (length (probes tr) ≤ length ix)%nat.
Proof.
  induction 1 as [| |h i rest wt ok tr b Hc Hrun IH].
  - cbn. lia.
  - cbn. lia.
  - rewrite probes_miss. cbn. lia.
Qed.

(** The probes of the trace are the exchanges of the environment, in
    order. *)
Lemma loop_run_codes h ix wt tr b :
  loop_run h ix wt tr b →
  ∀ k c, probes tr !! k = Some c → c = fst (probe_result (h k)).
Proof.
  induction 1 as [h wt|h i rest wt Hc|h i rest wt ok tr b Hc Hrun IH];
    intros k c Hk.
  - discriminate.
  - destruct k; [|discriminate]. cbn in Hk. injection Hk as <-. by symmetry.
  - rewrite probes_miss in Hk. destruct k; cbn in Hk.
    + by injection Hk as <-.
    + by apply IH in Hk.
Qed.

(** Around any probe of the trace: a 200 ends the trace and sets the
    flag; anything else is followed at once by a restart. *)
Lemma loop_run_probe h ix wt tr b :
  loop_run h ix wt tr b →
  ∀ pre code post, tr = pre ++ EProbe code :: post →
    (code = Some 200 → post = [] ∧ b = true)
    ∧ (code ≠ Some 200 → ∃ ok post', post = ERestart ok :: post').
Proof.
  induction 1 as [h wt|h i rest wt Hc|h i rest wt ok tr b Hc Hrun IH];
    intros pre code post E.
  - by destruct pre.
  - destruct pre as [|e1 pre]; [|by destruct pre].
    injection E as <- <-. by split.
  - unfold miss_events in E.
    destruct pre as [|e1 pre]; cbn in E.
    { injection E as <- <-. split; [done|]. intros _. by eexists _, _. }
    injection E as <- E.
    destruct pre as [|e2 pre]; cbn in E; [discriminate|].
    injection E as <- E.
    destruct (Z.ltb i MAX_RETRIES); cbn in E; [|by eapply IH].
    destruct pre as [|e3 pre]; cbn in E; [discriminate|].
    injection E as <- E. by eapply IH.
Qed.

(** Every restart of the trace comes right after a probe that was not a
    200. *)
Lemma loop_run_restart h ix wt tr b :
  loop_run h ix wt tr b →
  ∀ pre ok post, tr = pre ++ ERestart ok :: post →
    ∃ pre' code, pre = pre' ++ [EProbe code] ∧ code ≠ Some 200.
Proof.
  induction 1 as [h wt|h i rest wt Hc|h i rest wt ok0 tr b Hc Hrun IH];
    intros pre ok post E.
  - by destruct pre.
  - destruct pre as [|e1 pre]; [discriminate|by destruct pre].
  - unfold miss_events in E.
    destruct pre as [|e1 pre]; cbn in E; [discriminate|].
    injection E as <- E.
    destruct pre as [|e2 pre]; cbn in E.
    { by exists [], (next_code h). }
    injection E as <- E.
    destruct (Z.ltb i MAX_RETRIES); cbn in E.
    + destruct pre as [|e3 pre]; cbn in E; [discriminate|].
      injection E as <- E.
      destruct (IH _ _ _ E) as (pre' & code & -> & Hne).
      by exists ([EProbe (next_code h); ERestart ok0; ESleep wt] ++ pre'), code.
    + destruct (IH _ _ _ E) as (pre' & code & -> & Hne).
      by exists ([EProbe (next_code h); ERestart ok0] ++ pre'), code.
Qed.

(** Leaving by [break] is meeting a 200; otherwise every index was
    tried. *)
Lemma loop_run_flag h ix wt tr b :
  loop_run h ix wt tr b →
  if b then ∃ pre, tr = pre ++ [EProbe (Some 200)] ∧ Some 200 ∉ probes pre
  else length (probes tr) = length ix ∧ Some 200 ∉ probes tr.
Proof.
  induction 1 as [h wt|h i rest wt Hc|h i rest wt ok tr b Hc Hrun IH].
  - split; [done|]. cbn. apply not_elem_of_nil.
  - exists []. split; [done|]. apply not_elem_of_nil.
  - destruct b.
    + destruct IH as (pre & -> & Hn).
      exists (miss_events i (next_code h) ok wt ++ pre).
      split; [by rewrite app_assoc|]. rewrite probes_miss.
      intros [?|?]%elem_of_cons; congruence.
    + destruct IH as [Hlen Hn]. rewrite probes_miss. cbn. split; [lia|].
      intros [?|?]%elem_of_cons; congruence.
Qed.

(** When the five exchanges all miss, the trace is five probe-restart
    pairs with the four waits in between. *)
Lemma loop_run_exhausted h tr b :
  (∀ k, (k < 5)%nat → fst (probe_result (h k)) ≠ Some 200) →
  loop_run h (seqZ 1 MAX_RETRIES) BASE_WAIT_SECONDS tr b →
  b = false
  ∧ sleeps tr = [30; 60; 90; 120]
  ∧ length (probes tr) = 5%nat
  ∧ length (restarts tr) = 5%nat
  ∧ ∃ pre ok, tr = pre ++ [ERestart ok].
Proof.
  intros Hall Hrun.
  change (seqZ 1 MAX_RETRIES) with [1; 2; 3; 4; 5] in Hrun.
  assert (H0 := Hall 0%nat ltac:(lia)). assert (H1 := Hall 1%nat ltac:(lia)).
  assert (H2 := Hall 2%nat ltac:(lia)). assert (H3 := Hall 3%nat ltac:(lia)).
  assert (H4 := Hall 4%nat ltac:(lia)).
  repeat match goal with
  | H : loop_run _ (_ :: _) _ _ _ |- _ =>
      inversion H; subst; clear H; [by unfold next_code, tl_stream in *|]
  | H : loop_run _ [] _ _ _ |- _ => inversion H; subst; clear H
  end.
  split; [done|]. rewrite !sleeps_miss, !probes_miss, !restarts_miss.
  split; [reflexivity|]. split; [reflexivity|]. split; [reflexivity|].
  eexists _, _. unfold miss_events at 5. cbn [Z.ltb Z.compare MAX_RETRIES Pos.compare Pos.compare_cont].
  rewrite app_nil_r, !app_assoc. 
  change [EProbe ?c; ERestart ?ok] with ([EProbe c] ++ [ERestart ok]).
  rewrite app_assoc. reflexivity.
Qed.

Lemma probes_app tr1 tr2 : probes (tr1 ++ tr2) = probes tr1 ++ probes tr2.
Proof. apply omap_app. Qed.

(** The loop leaves by [break] exactly when one of the exchanges it can
    reach is a 200. *)
Lemma loop_run_success_iff h ix wt tr b :
  loop_run h ix wt tr b →
  b = true ↔ ∃ k, (k < length ix)%nat ∧ fst (probe_result (h k)) = Some 200.
Proof.
  intros Hrun. pose proof (loop_run_flag _ _ _ _ _ Hrun) as Hflag.
  pose proof (loop_run_codes _ _ _ _ _ Hrun) as Hcodes.
  pose proof (loop_run_bound _ _ _ _ _ Hrun) as Hbound.
  destruct b.
  - split; [intros _|done]. destruct Hflag as (pre & -> & _).
    rewrite probes_app in Hcodes, Hbound. cbn in Hcodes, Hbound.
    rewrite length_app in Hbound. cbn in Hbound.
    exists (length (probes pre)). split; [lia|]. symmetry. apply Hcodes.
    by rewrite lookup_app_r, Nat.sub_diag by lia.
  - split; [done|]. intros (k & Hk & Hc). destruct Hflag as [Hlen Hno].
    destruct (lookup_lt_is_Some_2 (probes tr) k) as [c Hkc]; [lia|].
    pose proof (Hcodes _ _ Hkc) as ->. rewrite Hc in Hkc.
    destruct Hno. by eapply list_elem_of_lookup_2.
Qed.

Section MainTrace.
Variable int_of_str : string -> option Z.

(** The trace of [main] is the trace of its loop, or nothing. *)
Lemma main_trace w :
  ∃ tr fs' e',
    snd (main int_of_str w) = MkWorld fs' (trace w ++ tr) e'
    ∧ (tr = [] ∨ ∃ b, loop_run (http (env w)) (seqZ 1 MAX_RETRIES)
                        BASE_WAIT_SECONDS tr b).
Proof.
  destruct (decide (lock (env w) = FlockBlocks)) as [Hl|Hl].
  - destruct (main_locked_out int_of_str w Hl) as (fs' & -> & _).
    exists [], fs', (env w). rewrite app_nil_r. by split; [|left].
  - destruct (gate int_of_str (loaded w THROTTLE_FILE)) as [[[] state]|e] eqn:Hg.
    + destruct (main_skipped int_of_str w state Hl Hg) as (fs' & e' & -> & _).
      exists [], fs', e'. rewrite app_nil_r. by split; [|left].
    + destruct (main_ran int_of_str w state Hl Hg)
        as (tr & b & fs' & e' & -> & Hrun & _).
      exists tr, fs', e'. split; [done|]. right. by exists b.
    + destruct (main_gate_raises int_of_str w e Hl Hg) as (fs' & e' & -> & _).
      exists [], fs', e'. rewrite app_nil_r. by split; [|left].
Qed.
End MainTrace.

(* ===================================================================== *)
(** ** The throttle state from run to run                                 *)
(* ===================================================================== *)

Lemma loop_run_nonempty h i rest wt tr b :
  loop_run h (i :: rest) wt tr b → tr ≠ [].
Proof. inversion 1; subst; [done|]. unfold miss_events. done. Qed.

Lemma stamped_last_failed state lf now :
  stamped state lf now !! "last_failed" = Some (JBool lf).
Proof.
  unfold stamped. rewrite lookup_insert_ne by done.
  destruct lf; cbn [negb].
  - by rewrite lookup_insert_eq.
  - rewrite lookup_insert_ne by done. by rewrite lookup_insert_eq.
Qed.

Lemma stamped_counter state lf now :
  stamped state lf now !! "counter"
  = if lf then state !! "counter" else Some (JInt 0).
Proof.
  unfold stamped. rewrite lookup_insert_ne by done.
  destruct lf; cbn [negb].
  - by rewrite lookup_insert_ne.
  - by rewrite lookup_insert_eq.
Qed.

Section Runs.
Variable int_of_str : string → option Z.

(** The decision on a throttle file that holds the dict [state]. *)
Lemma gate_dict state :
  gate int_of_str (JObj state)
  = if st_last_failed state then
      match st_counter int_of_str state with
      | Ok c => Ok (negb (Z.eqb ((c + 1) mod RUN_EVERY_N_AFTER_FAILURE) 0),
                    <["counter" := JInt (c + 1)]> state)
      | Raise e => Raise e
      end
    else Ok (false, <["counter" := JInt 0]> state).
Proof. reflexivity. Qed.

(** One run on a throttle file that holds a dict, when the gate comes
    to a decision. *)
Lemma invoke_gate_ok e fs state sy skip state1 :
  lock e ≠ FlockBlocks →
  read_faults e 0%nat = false →
  fs !! THROTTLE_FILE = Some (File (Document (JObj state)) sy) →
  gate int_of_str (JObj state) = Ok (skip, state1) →
  ∃ (tr : list event) (b : bool) fs',
    invoke int_of_str e fs
      = ((if faulty (write_faults e 0%nat) || faulty (write_faults e 1%nat)
          then Raise (OSError "I/O error")
          else Ok (if skip then 0 else if b then 0 else 1), tr), fs')
    ∧ (if skip then tr = []
       else loop_run (http e) (seqZ 1 MAX_RETRIES) BASE_WAIT_SECONDS tr b)
    ∧ (faulty (write_faults e 0%nat) = false →
       faulty (write_faults e 1%nat) = false →
       ∃ now, fs' !! THROTTLE_FILE
              = Some (File (Document
                             (JObj (stamped state1 (skip || negb b) now))) true)).
Proof.
  intros Hl Hrf Hfile Hg. unfold invoke.
  set (w := MkWorld fs [] e).
  assert (loaded w THROTTLE_FILE = JObj state) as Hload
    by (unfold loaded; cbn; by rewrite Hrf, Hfile).
  rewrite <- Hload in Hg. destruct skip.
  - destruct (main_skipped int_of_str w state1 Hl Hg)
      as (fs' & e' & -> & Hthr & _).
    exists [], false, fs'. cbn. split; [done|]. split; [done|].
    intros F0 _. eexists. by apply Hthr.
  - destruct (main_ran int_of_str w state1 Hl Hg)
      as (tr & b & fs' & e' & -> & Hrun & _ & Hthr).
    exists tr, b, fs'. cbn. split; [done|]. split; [done|].
    intros F0 F1. by apply Hthr.
Qed.
End Runs.


(** Between [c] and [c + 1] the quotient by 10 steps exactly at the
    multiples of 10. *)
Lemma div10_step c :
  (c + 1) / 10 = c / 10 + (if Z.eqb ((c + 1) mod 10) 0 then 1 else 0).
Proof.
  destruct (Z.eqb_spec ((c + 1) mod 10) 0) as [H|H];
    pose proof (Z.div_mod (c + 1) 10 ltac:(lia));
    pose proof (Z.div_mod c 10 ltac:(lia));
    pose proof (Z.mod_pos_bound (c + 1) 10 ltac:(lia));
    pose proof (Z.mod_pos_bound c 10 ltac:(lia)); lia.
Qed.

Section Streak.
Variable int_of_str : string → option Z.

(** One run of a failure streak: the counter goes up by one and the
    run probes exactly when the new counter is a multiple of 10. *)
Lemma invoke_failing e fs state sy c :
  failing e →
  fs !! THROTTLE_FILE = Some (File (Document (JObj state)) sy) →
  st_last_failed state = true →
  st_counter int_of_str state = Ok c →
  ∃ rep fs' state',
    invoke int_of_str e fs = (rep, fs')
    ∧ fs' !! THROTTLE_FILE = Some (File (Document (JObj state')) true)
    ∧ st_last_failed state' = true
    ∧ st_counter int_of_str state' = Ok (c + 1)
    ∧ proceeded rep = Z.eqb ((c + 1) mod RUN_EVERY_N_AFTER_FAILURE) 0.
Proof.
  intros (Hl & Hrf & F0 & F1 & Hall) Hfile Hlf Hc.
  pose proof (gate_dict int_of_str state) as Hg. rewrite Hlf, Hc in Hg.
  destruct (invoke_gate_ok int_of_str e fs state sy _ _ Hl Hrf Hfile Hg)
    as (tr & b & fs' & -> & Htr & Hthr).
  rewrite F0, F1. cbn [orb]. destruct (Hthr F0 F1) as [now Hfile'].
  destruct (Z.eqb ((c + 1) mod RUN_EVERY_N_AFTER_FAILURE) 0) eqn:E;
    cbn [negb orb] in *; (eexists _, fs', _; split; [reflexivity|]).
  - destruct (loop_run_exhausted _ _ _ Hall Htr) as (-> & _).
    cbn [negb] in Hfile'. split; [exact Hfile'|].
    unfold st_last_failed, st_counter, dict_get.
    rewrite stamped_last_failed, stamped_counter, lookup_insert_eq.
    repeat split. unfold proceeded. cbn [snd].
    pose proof (loop_run_nonempty _ _ _ _ _ _ Htr). by destruct tr.
  - subst tr. split; [exact Hfile'|].
    unfold st_last_failed, st_counter, dict_get.
    rewrite stamped_last_failed, stamped_counter, lookup_insert_eq.
    by repeat split.
Qed.

(** Over a failure streak the runs that probe are as many as the
    multiples of 10 that the counter passes. *)
Lemma cron_failing es : ∀ fs state sy c,
  Forall failing es →
  fs !! THROTTLE_FILE = Some (File (Document (JObj state)) sy) →
  st_last_failed state = true →
  st_counter int_of_str state = Ok c →
  Z.of_nat (length (filter (λ rep, proceeded rep = true)
                      (fst (cron int_of_str es fs))))
  = (c + Z.of_nat (length es)) / 10 - c / 10.
Proof.
  induction es as [|e es IH]; intros fs state sy c Hes Hfile Hlf Hc.
  - cbn [cron fst length]. rewrite filter_nil. cbn [length].
    change (Z.of_nat 0) with 0. rewrite Z.add_0_r. lia.
  - apply Forall_cons in Hes as [He Hes].
    destruct (invoke_failing e fs state sy c He Hfile Hlf Hc)
      as (rep & fs' & state' & Hinv & Hfile' & Hlf' & Hc' & Hp).
    cbn [cron]. rewrite Hinv.
    specialize (IH fs' state' true (c + 1) Hes Hfile' Hlf' Hc').
    destruct (cron int_of_str es fs') as [reps fs2]. cbn [fst] in *.
    rewrite filter_cons. change RUN_EVERY_N_AFTER_FAILURE with 10 in Hp.
    pose proof (div10_step c) as Hstep.
    replace (c + Z.of_nat (length (e :: es)))
      with (c + 1 + Z.of_nat (length es)) by (cbn [length]; lia).
    destruct (decide (proceeded rep = true)) as [Hd|Hd].
    + rewrite Hd in Hp. rewrite <- Hp in Hstep. cbn [length]. lia.
    + apply not_true_is_false in Hd. rewrite Hd in Hp.
      rewrite <- Hp in Hstep. lia.
Qed.
End Streak.


(* ===================================================================== *)
(** ** What the loop reaches, and the faults of the writes                *)
(* ===================================================================== *)

(** The loop reaches every exchange that no 200 comes before: it probes
    it, and restarts when it is not a 200. *)
Lemma loop_run_reaches h ix wt tr b :
  loop_run h ix wt tr b →
  ∀ k, (k < length ix)%nat →
    (∀ j, (j < k)%nat → fst (probe_result (h j)) ≠ Some 200) →
    probes tr !! k = Some (fst (probe_result (h k)))
    ∧ (fst (probe_result (h k)) ≠ Some 200 → is_Some (restarts tr !! k)).
Proof.
  induction 1 as [h wt|h i rest wt Hc|h i rest wt ok tr b Hc Hrun IH];
    intros k Hk Hbefore.
  - cbn in Hk. lia.
  - destruct k as [|k].
    + unfold next_code in Hc. cbn. by rewrite Hc.
    + destruct (Hbefore 0%nat); [lia|done].
  - rewrite probes_miss, restarts_miss. destruct k as [|k]; cbn.
    + by split; [|eexists].
    + apply IH; [cbn in Hk; lia|]. intros j Hj. apply (Hbefore (S j)). lia.
Qed.

(** The loop of [main]: its waits and its restarts by its probes. *)
Lemma loop_run_counts h tr b :
  loop_run h (seqZ 1 MAX_RETRIES) BASE_WAIT_SECONDS tr b →
  length (restarts tr) = (length (probes tr) - (if b then 1 else 0))%nat
  ∧ length (sleeps tr) = (length (restarts tr) `min` 4)%nat
  ∧ (1 ≤ length (probes tr) ≤ 5)%nat.
Proof.
  intros Hrun. change (seqZ 1 MAX_RETRIES) with [1; 2; 3; 4; 5] in Hrun.
  repeat match goal with
  | H : loop_run _ (_ :: _) _ _ _ |- _ => inversion H; subst; clear H
  | H : loop_run _ [] _ _ _ |- _ => inversion H; subst; clear H
  end;
  rewrite ?sleeps_miss, ?probes_miss, ?restarts_miss; cbn; lia.
Qed.

(** Where the first 200 stands, the loop ends. *)
Lemma loop_run_first_200 h ix wt tr b k :
  loop_run h ix wt tr b →
  (k < length ix)%nat →
  fst (probe_result (h k)) = Some 200 →
  (∀ j, (j < k)%nat → fst (probe_result (h j)) ≠ Some 200) →
  b = true ∧ length (probes tr) = S k.
Proof.
  intros Hrun Hk H200 Hbefore.
  assert (b = true) as ->
    by (apply (loop_run_success_iff _ _ _ _ _ Hrun); by exists k).
  split; [done|].
  destruct (loop_run_reaches _ _ _ _ _ Hrun k Hk Hbefore) as [Hpk _].
  destruct (loop_run_flag _ _ _ _ _ Hrun) as (pre & -> & Hno).
  rewrite probes_app in *. cbn in *. rewrite length_app. cbn.
  destruct (decide (k < length (probes pre))%nat) as [Hlt|Hge].
  - rewrite lookup_app_l in Hpk by done. rewrite H200 in Hpk.
    destruct Hno. by eapply list_elem_of_lookup_2.
  - apply lookup_lt_Some in Hpk. rewrite length_app in Hpk. cbn in Hpk. lia.
Qed.

(** One restart per probe that is not a 200. *)
Lemma loop_run_restart_count h ix wt tr b :
  loop_run h ix wt tr b →
  length (restarts tr)
  = length (filter (λ c, c ≠ Some (200 : Z)) (probes tr)).
Proof.
  induction 1 as [h wt|h i rest wt Hc|h i rest wt ok tr b Hc Hrun IH].
  - done.
  - cbn. by rewrite decide_False by (intros H; by apply H).
  - rewrite probes_miss, restarts_miss, filter_cons.
    rewrite decide_True by done. cbn. by rewrite IH.
Qed.

Section WriteFaults.
Variable int_of_str : string -> option Z.


End WriteFaults.

(* ===================================================================== *)
(** ** The properties                                                     *)
(* ===================================================================== *)

(** C1. The retry loop of [main], from any world. It makes at least one
    probe and at most [MAX_RETRIES]; the probes are the exchanges of the
    environment in order, and there is one attempt record per probe. The
    success flag is set exactly when one of the five exchanges gives 200.
    Where the first 200 stands, at exchange [k], the loop ends: it has
    made [k + 1] probes and records, [k] restarts and [k] waits, and the
    200 is its last event. When no exchange gives 200 it makes five
    probes and leaves the flag unset. A probe that gives 200 is the last
    event of the loop: no restart, no wait and no further probe follows,
    and no 200 came before it. *)
Theorem retry_loop_stops_at_first_200 (w : World) :
  ∃ ls tr e',
    run_attempts w = (Ok ls, MkWorld (files w) (trace w ++ tr) e')
    ∧ (1 ≤ length (probes tr) ≤ Z.to_nat MAX_RETRIES)%nat
    ∧ (∀ k c, probes tr !! k = Some c → c = fst (probe_result (http (env w) k)))
    ∧ length (attempts ls) = length (probes tr)
    ∧ ((succeeded ls = true) ↔ (Some 200 ∈ probes tr))
    ∧ ((succeeded ls = true)
       ↔ ∃ k, (k < 5)%nat ∧ fst (probe_result (http (env w) k)) = Some 200)
    ∧ (∀ k, (k < 5)%nat →
         fst (probe_result (http (env w) k)) = Some 200 →
         (∀ j, (j < k)%nat → fst (probe_result (http (env w) j)) ≠ Some 200) →
         succeeded ls = true
         ∧ length (probes tr) = S k
         ∧ length (attempts ls) = S k
         ∧ length (restarts tr) = k
         ∧ length (sleeps tr) = k
         ∧ ∃ pre, tr = pre ++ [EProbe (Some 200)])
    ∧ ((∀ k, (k < 5)%nat → fst (probe_result (http (env w) k)) ≠ Some 200) →
       succeeded ls = false ∧ length (probes tr) = 5%nat)
    ∧ ∀ pre post, tr = pre ++ EProbe (Some 200) :: post →
        post = [] ∧ succeeded ls = true
        ∧ (Some 200 ∉ probes pre)
        ∧ length (attempts ls) = S (length (probes pre)).
Proof.
  unfold run_attempts.
  destruct (retry_loop_run (seqZ 1 MAX_RETRIES)
              (MkLoop [] BASE_WAIT_SECONDS false []) w)
    as (ls & e' & tr & b & -> & Hrun & Hs & Hl & _).
  cbn [attempts succeeded wait length] in *. rewrite orb_false_r in Hs. subst b.
  exists ls, tr, e'. split; [done|].
  destruct (loop_run_counts _ _ _ Hrun) as (Hrest & Hsleep & Hbound).
  split; [exact Hbound|].
  split; [exact (loop_run_codes _ _ _ _ _ Hrun)|].
  split; [lia|].
  pose proof (loop_run_flag _ _ _ _ _ Hrun) as Hflag.
  pose proof (loop_run_success_iff _ _ _ _ _ Hrun) as Hiff.
  change (length (seqZ 1 MAX_RETRIES)) with 5%nat in Hiff.
  assert (∀ pre post, tr = pre ++ EProbe (Some 200) :: post →
            post = [] ∧ succeeded ls = true) as Hstop.
  { intros pre post E.
    by destruct (loop_run_probe _ _ _ _ _ Hrun pre (Some 200) post E) as [H _];
      apply H. }
  split.
  { destruct (succeeded ls).
    - destruct Hflag as (pre & -> & _). split; [intros _|done].
      rewrite probes_app. apply elem_of_app. right.
      by apply list_elem_of_singleton.
    - destruct Hflag as [_ Hno]. by split. }
  split; [exact Hiff|].
  split.
  { intros k Hk H200 Hbefore.
    destruct (loop_run_first_200 _ _ _ _ _ k Hrun Hk H200 Hbefore) as [Hb Hp].
    rewrite Hb in *. destruct Hflag as (pre & Htr & _).
    repeat split; try done; try lia. by exists pre. }
  split.
  { intros Hall.
    assert (succeeded ls = false) as Hf.
    { destruct (succeeded ls); [|done].
      destruct Hiff as [Hex _]. destruct (Hex eq_refl) as (k & Hk & H200).
      by destruct (Hall k Hk). }
    rewrite Hf in *. split; [done|]. by destruct Hflag as [-> _]. }
  intros pre post E. destruct (Hstop pre post E) as [-> Hs].
  split; [done|]. split; [done|]. rewrite Hs in Hflag.
  destruct Hflag as (pre' & E' & Hno). rewrite E in E'.
  apply (app_inj_tail pre pre') in E' as [<- _].
  split; [done|]. rewrite Hl, E, probes_app, length_app. cbn. lia.
Qed.

Lemma retry_loop_stops_at_first_200_witness :
  (1 < 5)%nat
  ∧ fst (probe_result (http (env world_recovers) 1%nat)) = Some 200
  ∧ (∀ j, (j < 1)%nat →
       fst (probe_result (http (env world_recovers) j)) ≠ Some 200)
  ∧ ∃ ls tr e',
      run_attempts world_recovers
        = (Ok ls, MkWorld (files world_recovers) (trace world_recovers ++ tr) e')
      ∧ succeeded ls = true
      ∧ length (probes tr) = 2%nat
      ∧ length (attempts ls) = 2%nat
      ∧ length (restarts tr) = 1%nat
      ∧ length (sleeps tr) = 1%nat
      ∧ ∃ pre, tr = pre ++ [EProbe (Some 200)].
Proof.
  assert ((1 < 5)%nat) as H1 by lia.
  assert (fst (probe_result (http (env world_recovers) 1%nat)) = Some 200)
    as H2 by reflexivity.
  assert (∀ j, (j < 1)%nat →
            fst (probe_result (http (env world_recovers) j)) ≠ Some 200) as H3.
  { intros j Hj. assert (j = 0%nat) as -> by lia. discriminate. }
  split; [exact H1|]. split; [exact H2|]. split; [exact H3|].
  destruct (retry_loop_stops_at_first_200 world_recovers)
    as (ls & tr & e' & Hrun & _ & _ & _ & _ & _ & Hfirst & _).
  exists ls, tr, e'. split; [exact Hrun|]. exact (Hfirst 1%nat H1 H2 H3).
Defined.

(** C2. When none of the five exchanges gives 200, the loop makes five
    probes and one wait less: 30, 60, 90 and 120 seconds, that is
    [BASE_WAIT_SECONDS + (k - 1) * WAIT_INCREMENT_SECONDS] for k from 1 to
    4, and its last event is a restart, not a wait. *)
Theorem waits_when_every_probe_fails (w : World) :
  (∀ k, (k < 5)%nat → fst (probe_result (http (env w) k)) ≠ Some 200) →
  ∃ ls tr e',
    run_attempts w = (Ok ls, MkWorld (files w) (trace w ++ tr) e')
    ∧ succeeded ls = false
    ∧ length (probes tr) = 5%nat
    ∧ length (sleeps tr) = (length (probes tr) - 1)%nat
    ∧ sleeps tr = [30; 60; 90; 120]
    ∧ sleeps tr
      = (λ k, BASE_WAIT_SECONDS + (k - 1) * WAIT_INCREMENT_SECONDS)
          <$> [1; 2; 3; 4]
    ∧ ∃ pre ok, tr = pre ++ [ERestart ok].
Proof.
  intros Hall. unfold run_attempts.
  destruct (retry_loop_run (seqZ 1 MAX_RETRIES)
              (MkLoop [] BASE_WAIT_SECONDS false []) w)
    as (ls & e' & tr & b & -> & Hrun & Hs & Hl & _).
  cbn [attempts succeeded wait length] in *. rewrite orb_false_r in Hs.
  destruct (loop_run_exhausted _ _ _ Hall Hrun) as (-> & Hsl & Hp & _ & Hlast).
  exists ls, tr, e'. rewrite Hsl, Hp. by repeat split.
Qed.

Lemma waits_when_every_probe_fails_witness :
  (∀ k, (k < 5)%nat → fst (probe_result (http (env world_500) k)) ≠ Some 200)
  ∧ ∃ ls tr e',
      run_attempts world_500
        = (Ok ls, MkWorld (files world_500) (trace world_500 ++ tr) e')
      ∧ succeeded ls = false
      ∧ length (probes tr) = 5%nat
      ∧ length (sleeps tr) = (length (probes tr) - 1)%nat
      ∧ sleeps tr = [30; 60; 90; 120]
      ∧ sleeps tr
        = (λ k, BASE_WAIT_SECONDS + (k - 1) * WAIT_INCREMENT_SECONDS)
            <$> [1; 2; 3; 4]
      ∧ ∃ pre ok, tr = pre ++ [ERestart ok].
Proof.
  assert (∀ k, (k < 5)%nat → fst (probe_result (http (env world_500) k)) ≠ Some 200)
    as H by (intros k _; cbn; discriminate).
  split; [exact H|]. exact (waits_when_every_probe_fails world_500 H).
Defined.

(** C3. In every run of [main], whatever its outcome: there is one
    restart per probe that did not give 200; a probe whose status is not
    200 is followed at once by a restart, also when it has no status at
    all; a probe that gives 200 is followed by nothing; and every restart
    comes right after a probe that did not give 200. In a run that gets
    past the lock and the throttle gate, every exchange that no 200 comes
    before is probed, and restarted after when it is not a 200: so a
    request that fails at the connection is probed with no status and a
    restart follows. *)
Theorem restart_after_every_failed_probe (int_of_str : string → option Z)
    (w : World) :
  ∃ tr,
    trace (snd (main int_of_str w)) = trace w ++ tr
    ∧ (∀ k c, probes tr !! k = Some c → c = fst (probe_result (http (env w) k)))
    ∧ length (restarts tr)
      = length (filter (λ c, c ≠ Some (200 : Z)) (probes tr))
    ∧ (∀ pre code post, tr = pre ++ EProbe code :: post →
         (code ≠ Some 200 → ∃ ok post', post = ERestart ok :: post')
         ∧ (code = None → ∃ ok post', post = ERestart ok :: post')
         ∧ (code = Some 200 → post = []))
    ∧ (∀ pre ok post, tr = pre ++ ERestart ok :: post →
         ∃ pre' code, pre = pre' ++ [EProbe code] ∧ code ≠ Some 200)
    ∧ (lock (env w) ≠ FlockBlocks →
       ∀ state, fst (should_throttle int_of_str w) = Ok (false, state) →
       ∀ k, (k < 5)%nat →
         (∀ j, (j < k)%nat → fst (probe_result (http (env w) j)) ≠ Some 200) →
         probes tr !! k = Some (fst (probe_result (http (env w) k)))
         ∧ (fst (probe_result (http (env w) k)) ≠ Some 200 →
            is_Some (restarts tr !! k))
         ∧ (∀ text, http (env w) k = RequestFailure text →
            probes tr !! k = Some None ∧ is_Some (restarts tr !! k))).
Proof.
  destruct (decide (lock (env w) = FlockBlocks)) as [Hl|Hl].
  { destruct (main_locked_out int_of_str w Hl) as (fs' & -> & _).
    exists []. rewrite app_nil_r. split; [done|]. split; [done|].
    split; [done|]. split; [intros pre ? post E; by destruct pre|].
    split; [intros pre ? post E; by destruct pre|]. done. }
  rewrite should_throttle_eq. cbn [fst].
  destruct (gate int_of_str (loaded w THROTTLE_FILE)) as [[[] state]|e] eqn:Hg.
  - destruct (main_skipped int_of_str w state Hl Hg) as (fs' & e' & -> & _).
    exists []. rewrite app_nil_r. split; [done|]. split; [done|].
    split; [done|]. split; [intros pre ? post E; by destruct pre|].
    split; [intros pre ? post E; by destruct pre|]. done.
  - destruct (main_ran int_of_str w state Hl Hg)
      as (tr & b & fs' & e' & -> & Hrun & _).
    exists tr. split; [done|].
    split; [exact (loop_run_codes _ _ _ _ _ Hrun)|].
    split; [exact (loop_run_restart_count _ _ _ _ _ Hrun)|].
    split.
    { intros pre code post E.
      destruct (loop_run_probe _ _ _ _ _ Hrun pre code post E) as [H200 Hne].
      split; [exact Hne|]. split.
      - intros ->. by apply Hne.
      - intros Hc. by apply H200. }
    split; [exact (loop_run_restart _ _ _ _ _ Hrun)|].
    intros _ state' _ k Hk Hbefore.
    destruct (loop_run_reaches _ _ _ _ _ Hrun k Hk Hbefore) as [Hp Hr].
    split; [exact Hp|]. split; [exact Hr|].
    intros text Hx. rewrite Hx in Hp, Hr. cbn in Hp, Hr. split; [exact Hp|].
    by apply Hr.
  - destruct (main_gate_raises int_of_str w e Hl Hg) as (fs' & e' & -> & _).
    exists []. rewrite app_nil_r. split; [done|]. split; [done|].
    split; [done|]. split; [intros pre ? post E; by destruct pre|].
    split; [intros pre ? post E; by destruct pre|]. done.
Qed.

Lemma restart_after_every_failed_probe_witness :
  lock (env world_refused) ≠ FlockBlocks
  ∧ fst (should_throttle no_int world_refused)
    = Ok (false, <["counter" := JInt 0]> ∅)
  ∧ (4 < 5)%nat
  ∧ (∀ j, (j < 4)%nat →
       fst (probe_result (http (env world_refused) j)) ≠ Some 200)
  ∧ http (env world_refused) 4%nat
    = RequestFailure "[Errno 111] Connection refused"
  ∧ ∃ tr,
      trace (snd (main no_int world_refused)) = trace world_refused ++ tr
      ∧ probes tr !! 4%nat = Some None
      ∧ is_Some (restarts tr !! 4%nat).
Proof.
  assert (lock (env world_refused) ≠ FlockBlocks) as H1 by discriminate.
  assert (fst (should_throttle no_int world_refused)
          = Ok (false, <["counter" := JInt 0]> ∅)) as H2
    by (vm_compute; reflexivity).
  assert ((4 < 5)%nat) as H3 by lia.
  assert (∀ j, (j < 4)%nat →
            fst (probe_result (http (env world_refused) j)) ≠ Some 200) as H4
    by (intros j _; discriminate).
  assert (http (env world_refused) 4%nat
          = RequestFailure "[Errno 111] Connection refused") as H5
    by reflexivity.
  split; [exact H1|]. split; [exact H2|]. split; [exact H3|].
  split; [exact H4|]. split; [exact H5|].
  destruct (restart_after_every_failed_probe no_int world_refused)
    as (tr & Htr & _ & _ & _ & _ & Hreach).
  exists tr. split; [exact Htr|].
  destruct (Hreach H1 _ H2 4%nat H3 H4) as (_ & _ & Hfail).
  exact (Hfail _ H5).
Defined.

(** C4. [should_throttle] on a throttle file that holds a dict. When
    [last_failed] is false it does not skip and sets the counter to 0.
    When [last_failed] is true and the counter is the integer [c], it sets
    the counter to [c + 1] and skips exactly when [c + 1] is not a
    multiple of [RUN_EVERY_N_AFTER_FAILURE]; and of any
    [RUN_EVERY_N_AFTER_FAILURE] successive runs of a failure streak
    exactly one goes past the gate. *)
Theorem should_throttle_one_in_n (int_of_str : string → option Z)
    (w : World) (state : dict) (sy : bool) :
  read_faults (env w) 0%nat = false →
  files w !! THROTTLE_FILE = Some (File (Document (JObj state)) sy) →
  (st_last_failed state = false →
   ∃ w', should_throttle int_of_str w
         = (Ok (false, <["counter" := JInt 0]> state), w'))
  ∧ (st_last_failed state = true →
     ∀ c, st_counter int_of_str state = Ok c →
       (∃ (skip : bool) w',
          should_throttle int_of_str w
            = (Ok (skip, <["counter" := JInt (c + 1)]> state), w')
          ∧ (skip = true ↔ (c + 1) mod RUN_EVERY_N_AFTER_FAILURE ≠ 0))
       ∧ ∀ es,
           Z.of_nat (length es) = RUN_EVERY_N_AFTER_FAILURE →
           Forall failing es →
           length (filter (λ rep, proceeded rep = true)
                     (fst (cron int_of_str es (files w)))) = 1%nat).
Proof.
  intros Hrf Hfile.
  assert (loaded w THROTTLE_FILE = JObj state) as Hload
    by (unfold loaded; by rewrite Hrf, Hfile).
  split.
  - intros Hlf. rewrite should_throttle_eq, Hload, gate_dict, Hlf. by eexists.
  - intros Hlf c Hc. split.
    + rewrite should_throttle_eq, Hload, gate_dict, Hlf, Hc.
      eexists _, _. split; [reflexivity|].
      destruct (Z.eqb_spec ((c + 1) mod RUN_EVERY_N_AFTER_FAILURE) 0) as [E|E];
        cbn [negb]; [by split|by split].
    + intros es Hlen Hes.
      pose proof (cron_failing int_of_str es (files w) state sy c
                    Hes Hfile Hlf Hc) as Hcount.
      rewrite Hlen in Hcount. change RUN_EVERY_N_AFTER_FAILURE with 10 in Hcount.
      replace (c + 10) with (c + 1 * 10) in Hcount by lia.
      rewrite Z.div_add in Hcount by lia. lia.
Qed.

Lemma should_throttle_one_in_n_witness :
  read_faults (env world_streak) 0%nat = false
  ∧ files world_streak !! THROTTLE_FILE
      = Some (File (Document (JObj streak_state)) true)
  ∧ st_last_failed streak_state = true
  ∧ st_counter no_int streak_state = Ok 3
  ∧ Forall failing (replicate 10 (env world_streak))
  ∧ (∃ (skip : bool) w',
       should_throttle no_int world_streak
         = (Ok (skip, <["counter" := JInt (3 + 1)]> streak_state), w')
       ∧ (skip = true ↔ (3 + 1) mod RUN_EVERY_N_AFTER_FAILURE ≠ 0))
  ∧ length (filter (λ rep, proceeded rep = true)
              (fst (cron no_int (replicate 10 (env world_streak))
                      (files world_streak)))) = 1%nat.
Proof.
  assert (read_faults (env world_streak) 0%nat = false) as H1 by reflexivity.
  assert (files world_streak !! THROTTLE_FILE
          = Some (File (Document (JObj streak_state)) true)) as H2
    by (vm_compute; reflexivity).
  assert (st_last_failed streak_state = true) as H3 by (vm_compute; reflexivity).
  assert (st_counter no_int streak_state = Ok 3) as H4
    by (vm_compute; reflexivity).
  assert (failing (env world_streak)) as Hf.
  { repeat split; try reflexivity; [discriminate|].
    intros k _. cbn. discriminate. }
  assert (Forall failing (replicate 10 (env world_streak))) as H5
    by (apply Forall_replicate; exact Hf).
  destruct (should_throttle_one_in_n no_int world_streak streak_state true
              H1 H2) as [_ H].
  destruct (H H3 3 H4) as [H6 H7].
  exact (conj H1 (conj H2 (conj H3 (conj H4 (conj H5
           (conj H6 (H7 (replicate 10 (env world_streak)) eq_refl H5))))))).
Defined.

(** C5. One run that gets past the lock, reads a throttle file holding
    a dict and returns. The file then holds a dict with a boolean
    [last_failed] and an integer [counter]. [last_failed] is false exactly
    when the run probed and succeeded, and then the counter is 0. When
    [last_failed] was true and stays true the counter has gone up by
    exactly 1. A skipped run (one that did not probe) is such a run: it
    had [last_failed] true, writes it true again, adds 1 to the counter
    and exits 0. *)
Theorem throttle_counter_across_runs (int_of_str : string → option Z)
    (e : Env) (fs fs' : Fs) (state : dict) (sy : bool) (code : Z)
    (tr : list event) :
  lock e ≠ FlockBlocks →
  read_faults e 0%nat = false →
  fs !! THROTTLE_FILE = Some (File (Document (JObj state)) sy) →
  invoke int_of_str e fs = ((Ok code, tr), fs') →
  ∃ state' (lf' : bool) (c' : Z),
    fs' !! THROTTLE_FILE = Some (File (Document (JObj state')) true)
    ∧ state' !! "last_failed" = Some (JBool lf')
    ∧ state' !! "counter" = Some (JInt c')
    ∧ (lf' = false ↔ code = 0 ∧ tr ≠ [])
    ∧ (lf' = false → c' = 0)
    ∧ (st_last_failed state = true → lf' = true →
       st_counter int_of_str state = Ok (c' - 1))
    ∧ (tr = [] →
       st_last_failed state = true ∧ lf' = true ∧ code = 0
       ∧ st_counter int_of_str state = Ok (c' - 1)).
Proof.
  intros Hl Hrf Hfile Hinv.
  destruct (gate int_of_str (JObj state)) as [[skip state1]|ex] eqn:Hg.
  2:{ assert (loaded (MkWorld fs [] e) THROTTLE_FILE = JObj state) as Hload
        by (unfold loaded; cbn; by rewrite Hrf, Hfile).
      rewrite <- Hload in Hg.
      destruct (main_gate_raises int_of_str (MkWorld fs [] e) _ Hl Hg)
        as (? & ? & Hm & _).
      unfold invoke in Hinv. rewrite Hm in Hinv. discriminate. }
  destruct (invoke_gate_ok int_of_str e fs state sy skip state1 Hl Hrf Hfile Hg)
    as (tr0 & b & fs0 & Hinv' & Htr & Hthr).
  rewrite Hinv in Hinv'.
  destruct (faulty (write_faults e 0%nat)); [discriminate|].
  destruct (faulty (write_faults e 1%nat)); [discriminate|].
  cbn [orb] in Hinv'. injection Hinv' as -> <- <-.
  destruct (Hthr eq_refl eq_refl) as [now Hfile']. clear Hthr.
  rewrite gate_dict in Hg.
  exists (stamped state1 (skip || negb b) now), (skip || negb b).
  destruct (st_last_failed state) eqn:Hlf.
  - destruct (st_counter int_of_str state) as [c|] eqn:Hc; [|discriminate].
    injection Hg as <- <-.
    destruct (negb (Z.eqb ((c + 1) mod RUN_EVERY_N_AFTER_FAILURE) 0)).
    + (* skipped *)
      exists (c + 1). cbn [orb] in *. subst tr.
      rewrite stamped_last_failed, stamped_counter, lookup_insert_eq.
      replace (c + 1 - 1) with c by lia.
      repeat split; try done. by intros [_ ?].
    + (* the Nth run of the streak *)
      pose proof (loop_run_nonempty _ _ _ _ _ _ Htr) as Hne.
      cbn [orb] in *. destruct b; cbn [negb] in *.
      * exists 0.
        rewrite stamped_last_failed, stamped_counter.
        repeat split; try done.
      * exists (c + 1).
        rewrite stamped_last_failed, stamped_counter, lookup_insert_eq.
        replace (c + 1 - 1) with c by lia.
        repeat split; try done. by intros [? _].
  - injection Hg as <- <-.
    pose proof (loop_run_nonempty _ _ _ _ _ _ Htr) as Hne.
    cbn [orb] in *. exists 0.
    rewrite stamped_last_failed, stamped_counter, lookup_insert_eq.
    destruct b; cbn [negb]; repeat split; try done. by intros [? _].
Qed.

Lemma throttle_counter_across_runs_witness :
  lock (env world_streak) ≠ FlockBlocks
  ∧ read_faults (env world_streak) 0%nat = false
  ∧ streak_files !! THROTTLE_FILE
      = Some (File (Document (JObj streak_state)) true)
  ∧ invoke no_int (env world_streak) streak_files
      = ((Ok 0, []), snd (invoke no_int (env world_streak) streak_files))
  ∧ ∃ state' (lf' : bool) (c' : Z),
      snd (invoke no_int (env world_streak) streak_files) !! THROTTLE_FILE
        = Some (File (Document (JObj state')) true)
      ∧ state' !! "last_failed" = Some (JBool lf')
      ∧ state' !! "counter" = Some (JInt c')
      ∧ (lf' = false ↔ 0 = 0 ∧ @nil event ≠ [])
      ∧ (lf' = false → c' = 0)
      ∧ (st_last_failed streak_state = true → lf' = true →
         st_counter no_int streak_state = Ok (c' - 1))
      ∧ (@nil event = [] →
         st_last_failed streak_state = true ∧ lf' = true ∧ 0 = 0
         ∧ st_counter no_int streak_state = Ok (c' - 1)).
Proof.
  assert (lock (env world_streak) ≠ FlockBlocks) as H1 by discriminate.
  assert (read_faults (env world_streak) 0%nat = false) as H2 by reflexivity.
  assert (streak_files !! THROTTLE_FILE
          = Some (File (Document (JObj streak_state)) true)) as H3
    by (vm_compute; reflexivity).
  assert (invoke no_int (env world_streak) streak_files
          = ((Ok 0, []), snd (invoke no_int (env world_streak) streak_files)))
    as H4 by (vm_compute; reflexivity).
  exact (conj H1 (conj H2 (conj H3 (conj H4
           (throttle_counter_across_runs no_int (env world_streak) streak_files
              _ streak_state true 0 [] H1 H2 H3 H4))))).
Defined.

(** C6. When [main] returns, its exit status is 0 or 1. It is 0 exactly
    when the run is locked out, or skipped by the throttle gate, or one
    of its five probes gives 200; it is 1 exactly when the run is neither
    locked out nor skipped and none of the five probes gives 200. *)
Theorem exit_status (int_of_str : string → option Z) (w : World) (c : Z) :
  fst (main int_of_str w) = Ok c →
  let locked_out := lock (env w) = FlockBlocks in
  let skipped := ∃ st, fst (should_throttle int_of_str w) = Ok (true, st) in
  let some_200 :=
    ∃ k, (k < 5)%nat ∧ fst (probe_result (http (env w) k)) = Some 200 in
  (c = 0 ∨ c = 1)
  ∧ (c = 1 ↔ ¬ locked_out ∧ ¬ skipped ∧ ¬ some_200)
  ∧ (c = 0 ↔ locked_out ∨ skipped ∨ some_200).
Proof.
  intros Hc. cbn zeta. rewrite should_throttle_eq. cbn [fst].
  destruct (decide (lock (env w) = FlockBlocks)) as [Hl|Hl].
  { destruct (main_locked_out int_of_str w Hl) as (fs' & Hm & _).
    rewrite Hm in Hc. injection Hc as <-.
    split; [by left|]. split; [|by split; [left|]].
    split; [done|]. by intros [? _]. }
  destruct (gate int_of_str (loaded w THROTTLE_FILE)) as [[[] state]|e] eqn:Hg.
  - destruct (main_skipped int_of_str w state Hl Hg) as (fs' & e' & Hm & _).
    rewrite Hm in Hc. cbn [fst] in Hc.
    destruct (_ || _); [discriminate|]. injection Hc as <-.
    split; [by left|]. split.
    + split; [done|]. intros (_ & Hns & _). destruct Hns. by exists state.
    + split; [|done]. intros _. right. left. by exists state.
  - destruct (main_ran int_of_str w state Hl Hg)
      as (tr & b & fs' & e' & Hm & Hrun & _).
    rewrite Hm in Hc. cbn [fst] in Hc.
    destruct (_ || _); [discriminate|]. injection Hc as <-.
    pose proof (loop_run_success_iff _ _ _ _ _ Hrun) as Hiff.
    change (length (seqZ 1 MAX_RETRIES)) with 5%nat in Hiff.
    destruct b.
    + assert (∃ k, (k < 5)%nat ∧ fst (probe_result (http (env w) k)) = Some 200)
        as H200 by by apply Hiff.
      split; [by left|]. split.
      * split; [done|]. by intros (_ & _ & ?).
      * split; [|done]. intros _. by right; right.
    + assert (¬ ∃ k, (k < 5)%nat ∧ fst (probe_result (http (env w) k)) = Some 200)
        as H200 by (intros H; by apply Hiff in H).
      split; [by right|]. split.
      * split; [|done]. intros _. split; [done|]. split; [|done].
        by intros [st ?].
      * split; [done|]. intros [?|[[st ?]|?]]; done.
  - destruct (main_gate_raises int_of_str w e Hl Hg) as (fs' & e' & Hm & _).
    rewrite Hm in Hc. discriminate.
Qed.

Lemma exit_status_witness :
  fst (main no_int world_200) = Ok 0
  ∧ (0 = 0 ∨ 0 = 1)
  ∧ (0 = 1 ↔ ¬ lock (env world_200) = FlockBlocks
             ∧ ¬ (∃ st, fst (should_throttle no_int world_200) = Ok (true, st))
             ∧ ¬ (∃ k, (k < 5)%nat
                     ∧ fst (probe_result (http (env world_200) k)) = Some 200))
  ∧ (0 = 0 ↔ lock (env world_200) = FlockBlocks
             ∨ (∃ st, fst (should_throttle no_int world_200) = Ok (true, st))
             ∨ (∃ k, (k < 5)%nat
                   ∧ fst (probe_result (http (env world_200) k)) = Some 200)).
Proof.
  assert (fst (main no_int world_200) = Ok 0) as H by (vm_compute; reflexivity).
  split; [exact H|]. exact (exit_status no_int world_200 0 H).
Defined.


(** C7, counterexample. On a 500 the probe returns the status code
    together with an error text, not with [None]. *)
Lemma http_error_status_comes_with_error_text :
  fst (http_get_status URL TIMEOUT_SECONDS world_500)
  = Ok (Some 500, Some "HTTPError: HTTP Error 500: Internal Server Error")
  ∧ fst (http_get_status URL TIMEOUT_SECONDS world_500) ≠ Ok (Some 500, None).
Proof. split; [reflexivity|discriminate]. Qed.

(** C7, amended. [http_get_status] never raises. A response that
    [urlopen] returns gives its integer status (200 when it has no
    [status] attribute) and no error; when its status is [None], [int]
    raises inside the [try] and the probe gives no status and the text
    ["RequestError: ..."]. An [HTTPError] gives its code together with
    the text ["HTTPError: ..."]; any other exception gives no status and
    the text ["RequestError: ..."]. So the error is [None] exactly for a
    returned response with an integer or no status, and the status is
    missing exactly for a response whose status is [None] and for a
    request that failed. *)
Theorem http_get_status_outcomes (url : string) (timeout : Z) (w : World) :
  ∃ code err,
    http_get_status url timeout w
      = (Ok (code, err),
         MkWorld (files w) (trace w ++ [EProbe code]) (pop_http (env w)))
    ∧ match http (env w) 0%nat with
      | Response NoStatus => code = Some 200 ∧ err = None
      | Response (Status n) => code = Some n ∧ err = None
      | Response StatusNone =>
          code = None
          ∧ err = Some "RequestError: int() argument must be a string, a bytes-like object or a real number, not 'NoneType'"
      | HTTPError c text =>
          code = Some c ∧ err = Some ("HTTPError: " +:+ text)
      | RequestFailure text =>
          code = None ∧ err = Some ("RequestError: " +:+ text)
      end
    ∧ (err = None
       ↔ http (env w) 0%nat = Response NoStatus
         ∨ ∃ n, http (env w) 0%nat = Response (Status n))
    ∧ (code = None
       ↔ http (env w) 0%nat = Response StatusNone
         ∨ ∃ text, http (env w) 0%nat = RequestFailure text).
Proof.
  rewrite http_get_status_eq.
  destruct (http (env w) 0%nat) as [[| |n]|c text|text]; cbn;
    eexists _, _; (split; [reflexivity|]); (split; [by split|]); split; split;
    try done; try (intros _; by eauto);
    try (by intros [?|[? ?]]).
Qed.


(** C8, amended. Nothing in [main] catches an exception of
    [should_throttle] or of a write: [main] raises exactly when the run
    is not locked out and either [should_throttle] raises or one of the
    two writes of the run meets a fault. When the exception comes from
    [should_throttle] or from the first write, the status file and the
    throttle file are left as they were. When it comes from the second
    write, the file written first holds its new contents (the throttle
    file of a skipped run, the status file of a run that probed) and the
    other is left as it was. *)



(** C9. [write_json_atomic(path, data)] works on the sibling
    [path + ".tmp"]: create, dump, fsync, then one [os.replace]. Whether
    the call returns or raises, and in every state of the file system
    that a crash or another process can see on the way, [path] holds
    either what it held before or the complete, synced new document. In
    all the states before the replace it holds what it held before. *)
Theorem write_json_atomic_all_or_nothing (path : string) (d : dict) (w : World) :
  let old := files w !! path in
  let new := Some (File (Document (JObj d)) true) in
  let ops := write_ops path d in
  ops = [Create (path +:+ ".tmp"); Dump (path +:+ ".tmp") d;
         Fsync (path +:+ ".tmp"); Replace (path +:+ ".tmp") path]
  ∧ path +:+ ".tmp" ≠ path
  ∧ (∃ r w', write_json_atomic path d w = (r, w')
       ∧ files w' = snd (run_ops ops (write_faults (env w) 0%nat) (files w))
       ∧ (r = Ok tt ∧ files w' !! path = new
          ∨ r = Raise (OSError "I/O error") ∧ files w' !! path = old))
  ∧ snd (run_ops ops None (files w)) !! path = new
  ∧ (∀ k, (k < 4)%nat →
       snd (run_ops ops (Some k) (files w)) !! path = old)
  ∧ (∀ fs, fs ∈ observable ops (files w) →
       fs !! path = old ∨ fs !! path = new)
  ∧ (∀ fs, fs ∈ observable (take 3 ops) (files w) → fs !! path = old).
Proof.
  cbn zeta. pose proof (tmp_path_fresh path) as Hfresh.
  unfold tmp_path in Hfresh.
  split; [reflexivity|]. split; [exact Hfresh|].
  split.
  { rewrite write_json_atomic_eq. eexists _, _. split; [reflexivity|].
    cbn [files]. split; [reflexivity|].
    destruct (faulty (write_faults (env w) 0%nat)) eqn:F.
    - right. destruct (run_write_fail path d _ (files w) F) as [-> H].
      split; [done|]. apply H. by unfold tmp_path.
    - left. by destruct (run_write_ok path d _ (files w) F) as (-> & H & _). }
  split.
  { by destruct (run_write_ok path d None (files w) eq_refl) as (_ & H & _). }
  split.
  { intros k Hk.
    assert (faulty (Some k) = true) as F by by apply Nat.ltb_lt.
    destruct (run_write_fail path d _ (files w) F) as [_ H].
    apply H. by unfold tmp_path. }
  assert (∀ fs, fs ∈ observable (take 3 (write_ops path d)) (files w) →
            fs !! path = files w !! path) as Hbefore.
  { intros fs Hin. cbn in Hin. unfold tmp_path in Hin.
    repeat (apply elem_of_cons in Hin as [->|Hin]; [
      rewrite ?lookup_alter_ne by done; by rewrite ?lookup_insert_ne by done|]).
    by apply elem_of_nil in Hin. }
  split; [|exact Hbefore].
  intros fs Hin. cbn in Hin. unfold tmp_path in Hin.
  rewrite lookup_alter_eq, lookup_insert_eq in Hin. cbn in Hin.
  repeat (apply elem_of_cons in Hin as [->|Hin]; [
    try (left; rewrite ?lookup_alter_ne by done;
         by rewrite ?lookup_insert_ne by done);
    try (right; by rewrite lookup_insert_eq)|]).
  by apply elem_of_nil in Hin.
Qed.

(** C10. [read_json] never raises, and gives [{}] when the file cannot
    be opened or is not a JSON document. When the throttle file holds a
    JSON document that is not an object, [read_json] returns that value
    as it is, [should_throttle] raises [AttributeError], and so does
    [main] unless the run is locked out. *)
Theorem read_json_returns_non_dict (int_of_str : string → option Z)
    (w : World) (j : json) (sy : bool) :
  read_faults (env w) 0%nat = false →
  files w !! THROTTLE_FILE = Some (File (Document j) sy) →
  (∀ m, j ≠ JObj m) →
  (∀ path w0, ∃ v,
     read_json path w0
       = (Ok v, MkWorld (files w0) (trace w0) (pop_read (env w0)))
     ∧ (read_faults (env w0) 0%nat = true
        ∨ (¬ ∃ j0 sy0, files w0 !! path = Some (File (Document j0) sy0)) →
        v = JObj ∅))
  ∧ fst (read_json THROTTLE_FILE w) = Ok j
  ∧ j ≠ JObj ∅
  ∧ (∃ msg, fst (should_throttle int_of_str w) = Raise (AttributeError msg))
  ∧ (lock (env w) ≠ FlockBlocks →
     ∃ msg, fst (main int_of_str w) = Raise (AttributeError msg)).
Proof.
  intros Hrf Hfile Hnd.
  assert (loaded w THROTTLE_FILE = j) as Hload
    by (unfold loaded; by rewrite Hrf, Hfile).
  assert (∃ msg, gate int_of_str j = Raise (AttributeError msg)) as [msg Hg].
  { unfold gate. destruct j; cbn; try by eexists. by destruct (Hnd m). }
  split.
  { intros path w0. rewrite read_json_eq. eexists. split; [reflexivity|].
    intros [->|Hno]; [done|]. destruct (read_faults (env w0) 0%nat); [done|].
    destruct (files w0 !! path) as [[[] ?]|]; try done.
    destruct Hno. by eexists _, _. }
  split; [by rewrite read_json_eq, <- Hload|].
  split; [apply Hnd|].
  split.
  - exists msg. by rewrite should_throttle_eq, Hload.
  - intros Hl. exists msg. rewrite <- Hload in Hg.
    by destruct (main_gate_raises int_of_str w _ Hl Hg) as (? & ? & -> & _).
Qed.

Lemma read_json_returns_non_dict_witness :
  read_faults (env world_array_throttle) 0%nat = false
  ∧ files world_array_throttle !! THROTTLE_FILE
      = Some (File (Document (JArr [JInt 1])) true)
  ∧ (∀ m, JArr [JInt 1] ≠ JObj m)
  ∧ fst (read_json THROTTLE_FILE world_array_throttle) = Ok (JArr [JInt 1])
  ∧ ∃ msg, fst (should_throttle no_int world_array_throttle)
           = Raise (AttributeError msg).
Proof.
  assert (read_faults (env world_array_throttle) 0%nat = false) as H1
    by reflexivity.
  assert (files world_array_throttle !! THROTTLE_FILE
          = Some (File (Document (JArr [JInt 1])) true)) as H2
    by (vm_compute; reflexivity).
  assert (∀ m, JArr [JInt 1] ≠ JObj m) as H3 by discriminate.
  destruct (read_json_returns_non_dict no_int world_array_throttle
              (JArr [JInt 1]) true H1 H2 H3) as (_ & H4 & _ & H5 & _).
  exact (conj H1 (conj H2 (conj H3 (conj H4 H5)))).
Defined.

(* ===================================================================== *)
(** ** The retry loop in full                                             *)
(* ===================================================================== *)

Lemma restart_service_eq w :
  restart_service w
  = (Ok (restart_result (systemctl (env w) 0%nat)),
     MkWorld (files w)
       (trace w ++ [ERestart (fst (restart_result (systemctl (env w) 0%nat)))])
       (pop_systemctl (env w))).
Proof. reflexivity. Qed.

(** One attempt, as an equation. *)
Lemma attempt_eq i ls w :
  attempt i ls w
  = let x := http (env w) 0%nat in
    let now := clock (env w) 0%nat in
    let r := restart_result (systemctl (env w) 0%nat) in
    if bool_decide (fst (probe_result x) = Some 200) then
      (Ok (Break (MkLoop (attempts ls ++ [attempt_record i x now]) (wait ls)
                    true (restart_errors ls))),
       MkWorld (files w) (trace w ++ [EProbe (Some 200)])
         (pop_clock (pop_http (env w))))
    else
      (Ok (Continue
             (MkLoop (attempts ls
                        ++ [restarted_record (attempt_record i x now) r])
                (next_wait i (wait ls)) (succeeded ls)
                (if fst r then restart_errors ls
                 else restart_errors ls ++ [snd r]))),
       MkWorld (files w)
         (trace w ++ miss_events i (fst (probe_result x)) (fst r) (wait ls))
         (pop_systemctl (pop_clock (pop_http (env w))))).
Proof.
  cbn zeta. unfold attempt. mred. rewrite http_get_status_eq.
  unfold attempt_record.
  destruct (probe_result (http (env w) 0%nat)) as [code err] eqn:E.
  cbn [fst snd files trace env]. case_bool_decide as Hc.
  - by rewrite Hc.
  - rewrite restart_service_eq.
    cbn [files trace env pop_clock pop_http systemctl clock].
    destruct (restart_result (systemctl (env w) 0%nat)) as [ok msg] eqn:R.
    rewrite !setitem_last_snoc. cbn [fst snd files trace env].
    unfold miss_events, next_wait, restarted_record. cbn [fst snd].
    destruct (Z.ltb i MAX_RETRIES); mred; cbn [files trace env];
      rewrite <- !app_assoc; cbn [app]; by destruct ok.
Qed.

Lemma failure_messages_cons r rs :
  failure_messages (r :: rs)
  = (if fst r then [] else [snd r]) ++ failure_messages rs.
Proof. unfold failure_messages. cbn. by destruct (fst r). Qed.

(** The loop in full: its trace, its records and its error messages, by
    the exchanges, restart outcomes and clock readings of the
    environment, the [k]-th attempt taking the [k]-th of each. *)
Lemma retry_loop_exact ix : ∀ ls w,
  ∃ ls' tr e',
    retry_loop ix ls w = (Ok ls', MkWorld (files w) (trace w ++ tr) e')
    ∧ (∃ b, loop_run (http (env w)) ix (wait ls) tr b
            ∧ succeeded ls' = b || succeeded ls)
    ∧ attempts ls'
      = attempts ls
        ++ imap (λ k, cycle_record (http (env w) k) (systemctl (env w) k)
                        (clock (env w) k))
             (take (length (probes tr)) ix)
    ∧ restarts tr
      = (λ k, fst (restart_result (systemctl (env w) k)))
          <$> seq 0 (length (restarts tr))
    ∧ restart_errors ls'
      = restart_errors ls
        ++ failure_messages
             ((λ k, restart_result (systemctl (env w) k))
                <$> seq 0 (length (restarts tr)))
    ∧ same_io (env w) e'.
Proof.
  induction ix as [|i rest IH]; intros ls w.
  - exists ls, [], (env w). rewrite !app_nil_r. cbn.
    repeat split; [by destruct w | exists false; split; [constructor|done]].
  - unfold retry_loop. cbn [for_each]. mred. rewrite attempt_eq. cbn zeta.
    case_bool_decide as Hc.
    + eexists _, [EProbe (Some 200)], _. split; [reflexivity|].
      cbn [attempts restart_errors succeeded].
      change (probes [EProbe (Some 200)]) with [Some (200 : Z)].
      change (restarts [EProbe (Some 200)]) with (@nil bool).
      cbn [length take seq fmap list_fmap]. rewrite imap_cons. cbn [imap].
      unfold cycle_record.
      rewrite bool_decide_eq_true_2 by done. rewrite app_nil_r.
      split; [exists true; split; [by constructor|done]|]. by repeat split.
    + cbv beta iota. change (for_each rest attempt) with (retry_loop rest).
      match goal with |- context [retry_loop rest ?ls1 ?w1] =>
        destruct (IH ls1 w1)
          as (ls' & tr & e' & -> & (b & Hrun & Hs) & Ha & Hr & He & Hio) end.
      cbn [files trace env attempts restart_errors succeeded wait
           pop_systemctl pop_clock pop_http http systemctl clock] in *.
      eexists ls', (miss_events _ _ _ _ ++ tr), e'.
      rewrite app_assoc. split; [reflexivity|].
      split; [exists b; split; [by constructor|done]|].
      rewrite probes_miss, restarts_miss. cbn [length take seq fmap list_fmap].
      rewrite imap_cons, <- fmap_S_seq, <- !list_fmap_compose.
      rewrite failure_messages_cons. unfold cycle_record at 1.
      rewrite bool_decide_eq_false_2 by done.
      split; [by rewrite Ha, <- app_assoc|].
      split; [by rewrite Hr at 1|].
      split; [|exact Hio].
      rewrite He. destruct (fst (restart_result (systemctl (env w) 0%nat)));
        by rewrite <- ?app_assoc.
Qed.


(** X2. The restarts of a run take the outcomes of the restart command in
    order, and [restart_errors] holds the messages of those that failed,
    in order: one entry per failed restart. *)
Theorem restart_errors_in_order (w : World) :
  ∃ ls tr e',
    run_attempts w = (Ok ls, MkWorld (files w) (trace w ++ tr) e')
    ∧ restarts tr
      = (λ k, fst (restart_result (systemctl (env w) k)))
          <$> seq 0 (length (restarts tr))
    ∧ restart_errors ls
      = failure_messages
          ((λ k, restart_result (systemctl (env w) k))
             <$> seq 0 (length (restarts tr)))
    ∧ length (restart_errors ls)
      = length (filter (λ ok, ok = false) (restarts tr)).
Proof.
  unfold run_attempts.
  destruct (retry_loop_exact (seqZ 1 MAX_RETRIES)
              (MkLoop [] BASE_WAIT_SECONDS false []) w)
    as (ls & tr & e' & -> & _ & _ & Hr & He & _).
  cbn [restart_errors app] in He.
  exists ls, tr, e'. split; [done|]. split; [done|]. split; [done|].
  rewrite He. rewrite Hr at 2.
  generalize (seq 0 (length (restarts tr))). intros l.
  induction l as [|k l IH]; [done|].
  cbn [fmap list_fmap]. rewrite failure_messages_cons, filter_cons.
  destruct (fst (restart_result (systemctl (env w) k))); cbn.
  - by rewrite decide_False by done.
  - rewrite decide_True by done. cbn. by f_equal.
Qed.

(** Two runs of the loop over the same exchanges agree on everything but
    the outcomes of the restarts. *)
Lemma loop_run_same_probes h ix wt tr b :
  loop_run h ix wt tr b →
  ∀ h' tr' b', (∀ k, h k = h' k) → loop_run h' ix wt tr' b' →
    b = b' ∧ probes tr = probes tr' ∧ sleeps tr = sleeps tr'
    ∧ length (restarts tr) = length (restarts tr').
Proof.
  induction 1 as [h wt|h i rest wt Hc|h i rest wt ok tr b Hc Hrun IH];
    intros h' tr' b' Hh Hrun'.
  - by inversion Hrun'.
  - inversion Hrun' as [| |? ? ? ? ? ? ? Hc']; subst; [done|].
    destruct Hc'. unfold next_code in *. by rewrite <- Hh.
  - inversion Hrun' as [|? ? ? ? Hc'|? ? ? ? ok' tr1 ? Hc' Hrun1]; subst.
    { destruct Hc. unfold next_code in *. by rewrite Hh. }
    assert (next_code h = next_code h') as Hn
      by (unfold next_code; by rewrite Hh).
    destruct (IH (tl_stream h') tr1 b') as (-> & Hp & Hs & Hr);
      [intros k; apply Hh|done|].
    rewrite !probes_miss, !sleeps_miss, !restarts_miss. cbn [length].
    by rewrite Hn, Hp, Hs, Hr.
Qed.

(** X3. The outcomes of the restarts do not steer the loop: two runs that
    meet the same exchanges make the same probes and the same waits, end
    with the same success flag and record as many attempts and restarts,
    whatever the restart command, the clock and the files are. *)
Theorem restarts_do_not_steer_the_loop (w1 w2 : World) :
  (∀ k, http (env w1) k = http (env w2) k) →
  ∃ ls1 tr1 e1 ls2 tr2 e2,
    run_attempts w1 = (Ok ls1, MkWorld (files w1) (trace w1 ++ tr1) e1)
    ∧ run_attempts w2 = (Ok ls2, MkWorld (files w2) (trace w2 ++ tr2) e2)
    ∧ succeeded ls1 = succeeded ls2
    ∧ probes tr1 = probes tr2
    ∧ sleeps tr1 = sleeps tr2
    ∧ length (restarts tr1) = length (restarts tr2)
    ∧ length (attempts ls1) = length (attempts ls2).
Proof.
  intros Hh. unfold run_attempts.
  destruct (retry_loop_run (seqZ 1 MAX_RETRIES)
              (MkLoop [] BASE_WAIT_SECONDS false []) w1)
    as (ls1 & e1 & tr1 & b1 & -> & Hrun1 & Hs1 & Hl1 & _).
  destruct (retry_loop_run (seqZ 1 MAX_RETRIES)
              (MkLoop [] BASE_WAIT_SECONDS false []) w2)
    as (ls2 & e2 & tr2 & b2 & -> & Hrun2 & Hs2 & Hl2 & _).
  cbn [wait succeeded attempts] in *.
  destruct (loop_run_same_probes _ _ _ _ _ Hrun1 _ _ _ Hh Hrun2)
    as (-> & Hp & Hsl & Hr).
  exists ls1, tr1, e1, ls2, tr2, e2.
  repeat split; try done; [congruence|]. rewrite Hl1, Hl2. by rewrite Hp.
Qed.

Lemma restarts_do_not_steer_the_loop_witness :
  (∀ k, http (env world_restart_fails) k = http (env world_refused) k)
  ∧ ∃ ls1 tr1 e1 ls2 tr2 e2,
      run_attempts world_restart_fails
        = (Ok ls1, MkWorld (files world_restart_fails)
                     (trace world_restart_fails ++ tr1) e1)
      ∧ run_attempts world_refused
        = (Ok ls2, MkWorld (files world_refused)
                     (trace world_refused ++ tr2) e2)
      ∧ succeeded ls1 = succeeded ls2
      ∧ probes tr1 = probes tr2
      ∧ sleeps tr1 = sleeps tr2
      ∧ length (restarts tr1) = length (restarts tr2)
      ∧ length (attempts ls1) = length (attempts ls2).
Proof.
  assert (∀ k, http (env world_restart_fails) k = http (env world_refused) k)
    as H by reflexivity.
  exact (conj H (restarts_do_not_steer_the_loop _ _ H)).
Defined.

(** X13. In every run of the loop the waits are the first entries of 30,
    60, 90, 120, one for each restart up to the fourth; there is one
    restart per probe, less the probe that succeeded. No wait is shorter
    than 30 or longer than 120 seconds. *)
Theorem waits_follow_the_schedule (w : World) :
  ∃ ls tr e',
    run_attempts w = (Ok ls, MkWorld (files w) (trace w ++ tr) e')
    ∧ sleeps tr = take (length (restarts tr)) [30; 60; 90; 120]
    ∧ length (restarts tr)
      = (length (probes tr) - (if succeeded ls then 1 else 0))%nat
    ∧ (∀ s : Z, s ∈ sleeps tr → (30 ≤ s ≤ 120)%Z).
Proof.
  unfold run_attempts.
  destruct (retry_loop_run (seqZ 1 MAX_RETRIES)
              (MkLoop [] BASE_WAIT_SECONDS false []) w)
    as (ls & e' & tr & b & -> & Hrun & Hs & _).
  cbn [wait succeeded] in *. rewrite orb_false_r in Hs. subst b.
  exists ls, tr, e'. split; [done|].
  change (seqZ 1 MAX_RETRIES) with [1; 2; 3; 4; 5] in Hrun.
  assert (sleeps tr = take (length (restarts tr)) [30; 60; 90; 120]
          ∧ length (restarts tr)
            = (length (probes tr) - (if succeeded ls then 1 else 0))%nat)
    as [Hsl Hlen].
  { repeat match goal with
    | H : loop_run _ (_ :: _) _ _ _ |- _ => inversion H; subst; clear H
    | H : loop_run _ [] _ _ _ |- _ => inversion H; subst; clear H
    end;
    repeat match goal with H : _ = succeeded ls |- _ => rewrite <- H end;
    rewrite ?sleeps_miss, ?probes_miss, ?restarts_miss; by split. }
  split; [done|]. split; [done|].
  intros s Hin. rewrite Hsl in Hin. apply elem_of_take in Hin as (k & Hk & _).
  repeat (destruct k as [|k]; [cbn in Hk; injection Hk as <-; lia|]).
  destruct k; discriminate.
Qed.

(** X4. The [k]-th attempt record (from 0) has ["try"] equal to [k + 1]
    and the status, error text and time of the [k]-th probe. It has no
    restart field when that probe gave 200; otherwise it has
    ["restart_called"] true and the result and message of the [k]-th
    restart. *)
Theorem attempt_records_content (w : World) :
  ∃ ls tr e',
    run_attempts w = (Ok ls, MkWorld (files w) (trace w ++ tr) e')
    ∧ ∀ (k : nat) (d : dict), attempts ls !! k = Some d →
        let x := http (env w) k in
        let r := restart_result (systemctl (env w) k) in
        d !! "try" = Some (JInt (Z.of_nat k + 1))
        ∧ d !! "http_status" = Some (opt_int (fst (probe_result x)))
        ∧ d !! "http_error" = Some (opt_str (snd (probe_result x)))
        ∧ d !! "checked_at" = Some (JStr (clock (env w) k))
        ∧ (fst (probe_result x) = Some 200 →
           d !! "restart_called" = None ∧ d !! "restart_ok" = None
           ∧ d !! "restart_msg" = None)
        ∧ (fst (probe_result x) ≠ Some 200 →
           d !! "restart_called" = Some (JBool true)
           ∧ d !! "restart_ok" = Some (JBool (fst r))
           ∧ d !! "restart_msg" = Some (JStr (snd r))).
Proof.
  unfold run_attempts.
  destruct (retry_loop_exact (seqZ 1 MAX_RETRIES)
              (MkLoop [] BASE_WAIT_SECONDS false []) w)
    as (ls & tr & e' & -> & _ & Ha & _).
  cbn [attempts app] in Ha.
  exists ls, tr, e'. split; [done|].
  intros k d Hk. cbn zeta. rewrite Ha, list_lookup_imap in Hk.
  destruct (take (length (probes tr)) (seqZ 1 MAX_RETRIES) !! k) as [i|] eqn:Hi;
    [|discriminate].
  cbn in Hk. injection Hk as <-.
  apply lookup_take_Some in Hi as [Hi _].
  apply lookup_seqZ in Hi as [-> _].
  replace (1 + Z.of_nat k) with (Z.of_nat k + 1) by lia.
  unfold cycle_record. case_bool_decide as Hc.
  - unfold attempt_record. rewrite lookup_insert_eq.
    rewrite !(lookup_insert_ne _ "try") by done.
    rewrite lookup_insert_eq.
    rewrite !(lookup_insert_ne _ "http_status") by done.
    rewrite lookup_insert_eq.
    rewrite !(lookup_insert_ne _ "http_error") by done.
    rewrite lookup_insert_eq.
    rewrite !(lookup_insert_ne _ "checked_at") by done.
    rewrite !lookup_empty. by repeat split.
  - unfold restarted_record, attempt_record.
    rewrite lookup_insert_eq.
    rewrite !(lookup_insert_ne _ "restart_msg") by done.
    rewrite lookup_insert_eq.
    rewrite !(lookup_insert_ne _ "restart_ok") by done.
    rewrite lookup_insert_eq.
    rewrite !(lookup_insert_ne _ "restart_called") by done.
    rewrite lookup_insert_eq.
    rewrite !(lookup_insert_ne _ "try") by done.
    rewrite lookup_insert_eq.
    rewrite !(lookup_insert_ne _ "http_status") by done.
    rewrite lookup_insert_eq.
    rewrite !(lookup_insert_ne _ "http_error") by done.
    rewrite lookup_insert_eq. by repeat split.
Qed.

(* ===================================================================== *)
(** ** Writing and reading back                                           *)
(* ===================================================================== *)

(** A write that completes removes its temporary file. *)
Lemma run_write_ok_tmp path d o fs :
  faulty o = false →
  snd (run_ops (write_ops path d) o fs) !! tmp_path path = None.
Proof.
  intros Ho. pose proof (tmp_path_fresh path) as Ht.
  destruct o as [[|[|[|[|k]]]]|]; try discriminate Ho;
    cbn; rewrite lookup_alter_eq, lookup_insert_eq; cbn;
    rewrite lookup_insert_ne by done; apply lookup_delete_eq.
Qed.

(** X7. When an atomic write meets no fault, reading the same path next
    gives back the dict that was written; the temporary file is gone and
    no other file has changed. *)
Theorem write_then_read (path : string) (d : dict) (w : World) :
  faulty (write_faults (env w) 0%nat) = false →
  read_faults (env w) 0%nat = false →
  ∃ w1 w2,
    write_json_atomic path d w = (Ok tt, w1)
    ∧ read_json path w1 = (Ok (JObj d), w2)
    ∧ files w1 !! tmp_path path = None
    ∧ (∀ q, q ≠ path → q ≠ tmp_path path → files w1 !! q = files w !! q)
    ∧ files w2 = files w1
    ∧ trace w2 = trace w.
Proof.
  intros Hwf Hrf. rewrite write_json_atomic_eq.
  destruct (run_write_ok path d _ (files w) Hwf) as (-> & Hnew & Hother).
  eexists _, _. split; [reflexivity|]. rewrite read_json_eq.
  cbn [files trace env pop_write read_faults]. rewrite Hrf, Hnew.
  split; [reflexivity|]. split; [by apply run_write_ok_tmp|]. by repeat split.
Qed.

Lemma write_then_read_witness :
  faulty (write_faults (env world_500) 0%nat) = false
  ∧ read_faults (env world_500) 0%nat = false
  ∧ ∃ w1 w2,
      write_json_atomic STATUS_FILE streak_state world_500 = (Ok tt, w1)
      ∧ read_json STATUS_FILE w1 = (Ok (JObj streak_state), w2)
      ∧ files w1 !! tmp_path STATUS_FILE = None
      ∧ (∀ q, q ≠ STATUS_FILE → q ≠ tmp_path STATUS_FILE →
           files w1 !! q = files world_500 !! q)
      ∧ files w2 = files w1
      ∧ trace w2 = trace world_500.
Proof.
  exact (conj eq_refl (conj eq_refl
           (write_then_read STATUS_FILE streak_state world_500 eq_refl eq_refl))).
Defined.

(** X15. An atomic write that is cut short raises [OSError], leaves every
    file but its temporary one as it was, and does not remove the
    temporary file: that file is untouched when it could not be opened,
    and otherwise holds part of the text, or the whole text not yet
    synced, or the whole text synced when the rename failed. *)
Theorem failed_write_leaves_its_temp_file (path : string) (d : dict) (w : World) :
  faulty (write_faults (env w) 0%nat) = true →
  ∃ w1,
    write_json_atomic path d w = (Raise (OSError "I/O error"), w1)
    ∧ (∀ q, q ≠ tmp_path path → files w1 !! q = files w !! q)
    ∧ trace w1 = trace w
    ∧ (write_faults (env w) 0%nat = Some 0%nat →
       files w1 !! tmp_path path = files w !! tmp_path path)
    ∧ (write_faults (env w) 0%nat = Some 1%nat →
       files w1 !! tmp_path path = Some (File (Prefix d) false))
    ∧ (write_faults (env w) 0%nat = Some 2%nat →
       files w1 !! tmp_path path = Some (File (Document (JObj d)) false))
    ∧ (write_faults (env w) 0%nat = Some 3%nat →
       files w1 !! tmp_path path = Some (File (Document (JObj d)) true)).
Proof.
  intros Hwf. rewrite write_json_atomic_eq.
  destruct (run_write_fail path d _ (files w) Hwf) as (-> & Hother).
  eexists. split; [reflexivity|]. cbn [files trace].
  split; [exact Hother|]. split; [done|].
  repeat split; intros ->; cbn; try done.
  - by rewrite lookup_insert_eq.
  - by rewrite lookup_insert_eq.
  - by rewrite lookup_alter_eq, lookup_insert_eq.
Qed.

Lemma failed_write_leaves_its_temp_file_witness :
  faulty (write_faults (env (world_500_slow_disk 1)) 0%nat) = true
  ∧ ∃ w1,
      write_json_atomic STATUS_FILE streak_state (world_500_slow_disk 1)
        = (Raise (OSError "I/O error"), w1)
      ∧ files w1 !! tmp_path STATUS_FILE
        = Some (File (Prefix streak_state) false).
Proof.
  split; [reflexivity|].
  destruct (failed_write_leaves_its_temp_file STATUS_FILE streak_state
              (world_500_slow_disk 1) eq_refl) as (w1 & H1 & _ & _ & _ & H2 & _).
  exists w1. split; [exact H1|]. exact (H2 eq_refl).
Defined.

(* ===================================================================== *)
(** ** The lock                                                           *)
(* ===================================================================== *)

(** The loop reads neither the files nor the lock. *)
Lemma retry_loop_frame ix : ∀ ls tr e,
  ∃ r tr' e', ∀ fs l,
    retry_loop ix ls (MkWorld fs tr (set_lock l e))
    = (r, MkWorld fs tr' (set_lock l e')).
Proof.
  induction ix as [|i rest IH]; intros ls tr e.
  - by eexists (Ok ls), tr, e.
  - unfold retry_loop. cbn [for_each]. mred.
    pose proof (λ fs l, attempt_eq i ls (MkWorld fs tr (set_lock l e))) as Heq.
    cbn zeta in Heq.
    cbn [files trace env set_lock http systemctl clock] in Heq.
    case_bool_decide as Hc.
    + exists (Ok (MkLoop
                (attempts ls
                   ++ [attempt_record i (http e 0%nat) (clock e 0%nat)])
                (wait ls) true (restart_errors ls))),
        (tr ++ [EProbe (Some 200)]), (pop_clock (pop_http e)).
      intros fs l. rewrite Heq. reflexivity.
    + change (for_each rest attempt) with (retry_loop rest).
      match type of Heq with
      | ∀ fs l, _ = (Ok (Continue ?ls1), MkWorld fs ?tr1 _) =>
          destruct (IH ls1 tr1 (pop_systemctl (pop_clock (pop_http e))))
            as (r & tr' & e' & Hrec) end.
      exists r, tr', e'. intros fs l. rewrite Heq. apply Hrec.
Qed.

(** The outcome of the steps of a write does not depend on the files. *)
Lemma run_write_result path d o fs :
  fst (run_ops (write_ops path d) o fs)
  = if faulty o then Raise (OSError "I/O error") else Ok tt.
Proof.
  destruct (faulty o) eqn:F.
  - by destruct (run_write_fail path d o fs F).
  - by destruct (run_write_ok path d o fs F).
Qed.

(** The steps of a write act on each path by itself. *)
Lemma run_write_pointwise path d o fs1 fs2 q :
  fs1 !! q = fs2 !! q →
  snd (run_ops (write_ops path d) o fs1) !! q
  = snd (run_ops (write_ops path d) o fs2) !! q.
Proof.
  intros Hq. pose proof (tmp_path_fresh path) as Ht.
  destruct (decide (q = tmp_path path)) as [->|Hqt].
  - destruct o as [[|[|[|[|k]]]]|]; cbn;
      rewrite ?lookup_alter_eq, ?lookup_insert_eq; cbn;
      rewrite ?lookup_insert_ne by done;
      rewrite ?lookup_delete_eq, ?lookup_alter_eq, ?lookup_insert_eq; done.
  - destruct (faulty o) eqn:F.
    + destruct (run_write_fail path d o fs1 F) as [_ H1].
      destruct (run_write_fail path d o fs2 F) as [_ H2].
      by rewrite H1, H2.
    + destruct (run_write_ok path d o fs1 F) as (_ & Hn1 & H1).
      destruct (run_write_ok path d o fs2 F) as (_ & Hn2 & H2).
      destruct (decide (q = path)) as [->|Hqp]; [by rewrite Hn1, Hn2|].
      by rewrite H1, H2.
Qed.

Section LockIndependence.
Variable int_of_str : string -> option Z.

Lemma main_proceeds w :
  lock (env w) ≠ FlockBlocks →
  ∃ fs1, (∀ q, q ≠ LOCK_FILE → fs1 !! q = files w !! q)
         ∧ main int_of_str w
           = after_lock int_of_str (MkWorld fs1 (trace w) (env w)).
Proof.
  intros Hl. unfold main. mred.
  destruct (acquire_lock_frame w) as (g & fs1 & -> & Hg & Hfs).
  destruct g as [|fd]; [by destruct Hl; apply Hg|]. by exists fs1.
Qed.

(** Once past the lock, two runs that differ in the lock outcome and in
    the lock file go the same way. *)
Lemma after_lock_agree tr e fs1 fs2 l1 l2 :
  (∀ q, q ≠ LOCK_FILE → fs1 !! q = fs2 !! q) →
  ∃ r tr' e' fs1' fs2',
    after_lock int_of_str (MkWorld fs1 tr (set_lock l1 e))
      = (r, MkWorld fs1' tr' (set_lock l1 e'))
    ∧ after_lock int_of_str (MkWorld fs2 tr (set_lock l2 e))
      = (r, MkWorld fs2' tr' (set_lock l2 e'))
    ∧ ∀ q, q ≠ LOCK_FILE → fs1' !! q = fs2' !! q.
Proof.
  intros Hfs. unfold after_lock. mred. rewrite !should_throttle_eq.
  assert (loaded (MkWorld fs1 tr (set_lock l1 e)) THROTTLE_FILE
          = loaded (MkWorld fs2 tr (set_lock l2 e)) THROTTLE_FILE) as ->
    by (unfold loaded; cbn; by rewrite Hfs).
  destruct (gate int_of_str _) as [[[] state]|ex].
  - (* skipped *)
    rewrite !update_throttle_state_eq, !write_json_atomic_eq.
    cbn [files trace env set_lock pop_read pop_clock pop_write
         write_faults clock].
    rewrite !run_write_result.
    destruct (faulty (write_faults e 0%nat)).
    + eexists _, tr, (pop_write (pop_clock (pop_read e))), _, _.
      split; [reflexivity|]. split; [reflexivity|].
      intros q Hq. apply run_write_pointwise. by apply Hfs.
    + rewrite !write_status_eq, !write_json_atomic_eq.
      cbn [files trace env set_lock pop_read pop_clock pop_write
           write_faults clock tl_stream].
      rewrite !run_write_result.
      destruct (faulty (write_faults e 1%nat));
        (eexists _, tr,
           (pop_write (pop_clock (pop_write (pop_clock (pop_read e))))), _, _;
         split; [reflexivity|]; split; [reflexivity|];
         intros q Hq; do 2 apply run_write_pointwise; by apply Hfs).
  - (* past the gate *)
    unfold run_attempts.
    destruct (retry_loop_frame (seqZ 1 MAX_RETRIES)
                (MkLoop [] BASE_WAIT_SECONDS false []) tr (pop_read e))
      as (r & tr' & e' & Hloop).
    cbn [files trace env].
    change (pop_read (set_lock l1 e)) with (set_lock l1 (pop_read e)).
    change (pop_read (set_lock l2 e)) with (set_lock l2 (pop_read e)).
    rewrite !Hloop. destruct r as [ls|ex].
    2:{ by eexists _, tr', e', fs1, fs2. }
    rewrite !write_status_eq, !write_json_atomic_eq.
    cbn [files trace env set_lock pop_read pop_clock pop_write
         write_faults clock].
    rewrite !run_write_result.
    destruct (faulty (write_faults e' 0%nat)).
    + eexists _, tr', (pop_write (pop_clock e')), _, _.
      split; [reflexivity|]. split; [reflexivity|].
      intros q Hq. apply run_write_pointwise. by apply Hfs.
    + rewrite !update_throttle_state_eq, !write_json_atomic_eq.
      cbn [files trace env set_lock pop_read pop_clock pop_write
           write_faults clock tl_stream].
      rewrite !run_write_result.
      destruct (faulty (write_faults e' 1%nat));
        (eexists _, tr',
           (pop_write (pop_clock (pop_write (pop_clock e')))), _, _;
         split; [reflexivity|]; split; [reflexivity|];
         intros q Hq; do 2 apply run_write_pointwise; by apply Hfs).
  - by eexists _, tr, (pop_read e), fs1, fs2.
Qed.
End LockIndependence.

(** X8. Trouble with the lock other than contention does not change the
    run: whether the lock was taken, could not be opened or could not be
    locked, [main] gives the same outcome, does the same probes, restarts
    and waits, and leaves the same files, the lock file apart. *)
Theorem lock_trouble_does_not_change_the_run (int_of_str : string → option Z)
    (fs : Fs) (tr : list event) (e : Env) (l1 l2 : lock_outcome) :
  l1 ≠ FlockBlocks → l2 ≠ FlockBlocks →
  let run1 := main int_of_str (MkWorld fs tr (set_lock l1 e)) in
  let run2 := main int_of_str (MkWorld fs tr (set_lock l2 e)) in
  fst run1 = fst run2
  ∧ trace (snd run1) = trace (snd run2)
  ∧ ∀ q, q ≠ LOCK_FILE → files (snd run1) !! q = files (snd run2) !! q.
Proof.
  intros H1 H2. cbn zeta.
  destruct (main_proceeds int_of_str (MkWorld fs tr (set_lock l1 e)) H1)
    as (fs1 & Hfs1 & ->).
  destruct (main_proceeds int_of_str (MkWorld fs tr (set_lock l2 e)) H2)
    as (fs2 & Hfs2 & ->).
  cbn [files trace env] in *.
  destruct (after_lock_agree int_of_str tr e fs1 fs2 l1 l2)
    as (r & tr' & e' & fs1' & fs2' & -> & -> & Hagree).
  { intros q Hq. by rewrite Hfs1, Hfs2. }
  by repeat split.
Qed.

Lemma lock_trouble_does_not_change_the_run_witness :
  NoLock ≠ FlockBlocks ∧ Locked 3 ≠ FlockBlocks
  ∧ fst (main no_int (MkWorld ∅ [] (set_lock NoLock (env world_500))))
    = fst (main no_int (MkWorld ∅ [] (set_lock (Locked 3) (env world_500))))
  ∧ trace (snd (main no_int (MkWorld ∅ [] (set_lock NoLock (env world_500)))))
    = trace (snd (main no_int
                    (MkWorld ∅ [] (set_lock (Locked 3) (env world_500))))).
Proof.
  assert (NoLock ≠ FlockBlocks) as H1 by discriminate.
  assert (Locked 3 ≠ FlockBlocks) as H2 by discriminate.
  destruct (lock_trouble_does_not_change_the_run no_int ∅ [] (env world_500)
              NoLock (Locked 3) H1 H2) as (H3 & H4 & _).
  exact (conj H1 (conj H2 (conj H3 H4))).
Defined.

(** X6. A run that finds the lock held returns 0 at once: it makes no
    probe, restart or wait, reads no clock and no other oracle, and leaves
    every file but the lock file as it was. The lock file exists
    afterwards, with its earlier contents if it was there. *)
Theorem locked_out_run_does_nothing (int_of_str : string → option Z)
    (w : World) :
  lock (env w) = FlockBlocks →
  ∃ fs',
    main int_of_str w = (Ok 0, MkWorld fs' (trace w) (env w))
    ∧ (∀ q, q ≠ LOCK_FILE → fs' !! q = files w !! q)
    ∧ is_Some (fs' !! LOCK_FILE)
    ∧ (∀ f, files w !! LOCK_FILE = Some f → fs' !! LOCK_FILE = Some f).
Proof.
  intros Hl. exists (touch LOCK_FILE (files w)).
  split.
  { unfold main, acquire_lock. mred. by rewrite Hl. }
  unfold touch. destruct (files w !! LOCK_FILE) as [f|] eqn:E.
  - split; [done|]. split; [by rewrite E|]. by intros ? [= <-].
  - split; [intros q Hq; by rewrite lookup_insert_ne|].
    split; [by rewrite lookup_insert_eq|]. done.
Qed.

Lemma locked_out_run_does_nothing_witness :
  lock (env world_locked_out) = FlockBlocks
  ∧ ∃ fs',
      main no_int world_locked_out
        = (Ok 0, MkWorld fs' (trace world_locked_out) (env world_locked_out))
      ∧ (∀ q, q ≠ LOCK_FILE → fs' !! q = files world_locked_out !! q)
      ∧ is_Some (fs' !! LOCK_FILE)
      ∧ (∀ f, files world_locked_out !! LOCK_FILE = Some f →
           fs' !! LOCK_FILE = Some f).
Proof.
  exact (conj eq_refl
           (locked_out_run_does_nothing no_int world_locked_out eq_refl)).
Defined.

(* ===================================================================== *)
(** ** The throttle file, whatever it held                                *)
(* ===================================================================== *)

Lemma loop_run_starts_with_probe h i rest wt tr b :
  loop_run h (i :: rest) wt tr b → ∃ c tr', tr = EProbe c :: tr'.
Proof. inversion 1; subst; [by eexists _, _|]. by eexists _, _. Qed.

Section GateShape.
Variable int_of_str : string -> option Z.

(** When the gate decides, it hands on the dict it read with an integer
    counter, and it skips only in a failure streak. *)
Lemma gate_ok_shape v skip state1 :
  gate int_of_str v = Ok (skip, state1) →
  ∃ state0 n,
    v = JObj state0
    ∧ state1 = <["counter" := JInt n]> state0
    ∧ (skip = true → st_last_failed state0 = true)
    ∧ (st_last_failed state0 = false → n = 0).
Proof.
  unfold gate. destruct v; cbn; try discriminate.
  fold (st_last_failed m). fold (st_counter int_of_str m).
  destruct (st_last_failed m) eqn:Hlf.
  - destruct (st_counter int_of_str m) as [c|]; [|discriminate].
    intros [= <- <-]. exists m, (c + 1). repeat split; try done; congruence.
  - intros [= <- <-]. exists m, 0. by repeat split.
Qed.

(** An unreadable throttle file counts as the empty state. *)
Lemma gate_empty :
  gate int_of_str (JObj ∅) = Ok (false, <["counter" := JInt 0]> ∅).
Proof. reflexivity. Qed.
End GateShape.

(** X10. When the throttle file cannot be read, is missing or does not
    hold a JSON document, the run is not throttled: it goes on to probe,
    and when it returns the throttle file holds exactly [updated_at],
    [counter] 0 and [last_failed], which is true exactly when the exit
    status is not 0. *)
Theorem unreadable_throttle_file_is_a_clean_start
    (int_of_str : string → option Z) (w : World) :
  lock (env w) ≠ FlockBlocks →
  (read_faults (env w) 0%nat = true
   ∨ ¬ ∃ j sy, files w !! THROTTLE_FILE = Some (File (Document j) sy)) →
  fst (should_throttle int_of_str w) = Ok (false, <["counter" := JInt 0]> ∅)
  ∧ ∃ c tr' fs' e',
      snd (main int_of_str w) = MkWorld fs' (trace w ++ EProbe c :: tr') e'
      ∧ (∀ code, fst (main int_of_str w) = Ok code →
         ∃ state' now,
           fs' !! THROTTLE_FILE = Some (File (Document (JObj state')) true)
           ∧ state'
             = <["updated_at" := JStr now]>
                 (<["counter" := JInt 0]>
                    (<["last_failed" := JBool (bool_decide (code ≠ 0))]> ∅))).
Proof.
  intros Hl Hbad.
  assert (loaded w THROTTLE_FILE = JObj ∅) as Hload.
  { unfold loaded. destruct Hbad as [->|Hno]; [done|].
    destruct (read_faults (env w) 0%nat); [done|].
    destruct (files w !! THROTTLE_FILE) as [[[] ?]|]; try done.
    destruct Hno. by eexists _, _. }
  split; [by rewrite should_throttle_eq, Hload|].
  pose proof (gate_empty int_of_str) as Hg. rewrite <- Hload in Hg.
  destruct (main_ran int_of_str w _ Hl Hg)
    as (tr & b & fs' & e' & Hm & Hrun & _ & Hthr).
  destruct (loop_run_starts_with_probe _ _ _ _ _ _ Hrun) as (c & tr' & ->).
  exists c, tr', fs', e'. rewrite Hm. split; [done|].
  intros code Hcode. cbn [fst] in Hcode.
  destruct (faulty (write_faults (env w) 0%nat)); [discriminate|].
  destruct (faulty (write_faults (env w) 1%nat)); [discriminate|].
  cbn [orb] in Hcode. injection Hcode as <-.
  destruct (Hthr eq_refl eq_refl) as [now Hfile].
  eexists _, now. split; [exact Hfile|].
  unfold stamped. destruct b; cbn [negb].
  - rewrite bool_decide_eq_false_2 by (intros H; by apply H). reflexivity.
  - rewrite bool_decide_eq_true_2 by done. reflexivity.
Qed.

Lemma unreadable_throttle_file_is_a_clean_start_witness :
  lock (env world_torn_throttle) ≠ FlockBlocks
  ∧ (read_faults (env world_torn_throttle) 0%nat = true
     ∨ ¬ ∃ j sy, files world_torn_throttle !! THROTTLE_FILE
                 = Some (File (Document j) sy))
  ∧ fst (should_throttle no_int world_torn_throttle)
    = Ok (false, <["counter" := JInt 0]> ∅).
Proof.
  assert (lock (env world_torn_throttle) ≠ FlockBlocks) as H1 by discriminate.
  assert (read_faults (env world_torn_throttle) 0%nat = true
          ∨ ¬ ∃ j sy, files world_torn_throttle !! THROTTLE_FILE
                      = Some (File (Document j) sy)) as H2.
  { right. intros (j & sy & H). vm_compute in H. discriminate. }
  destruct (unreadable_throttle_file_is_a_clean_start no_int
              world_torn_throttle H1 H2) as [H3 _].
  exact (conj H1 (conj H2 H3)).
Defined.

(** X12. In a failure streak a counter that [int()] rejects ends the run:
    the exception of [int()] leaves [main] before any probe, and no file
    but the lock file changes. *)
Theorem corrupt_counter_stops_a_streak_run (int_of_str : string → option Z)
    (w : World) (state : dict) (sy : bool) (ex : exn) :
  lock (env w) ≠ FlockBlocks →
  read_faults (env w) 0%nat = false →
  files w !! THROTTLE_FILE = Some (File (Document (JObj state)) sy) →
  st_last_failed state = true →
  st_counter int_of_str state = Raise ex →
  ∃ fs' e',
    main int_of_str w = (Raise ex, MkWorld fs' (trace w) e')
    ∧ ∀ q, q ≠ LOCK_FILE → fs' !! q = files w !! q.
Proof.
  intros Hl Hrf Hfile Hlf Hc.
  assert (loaded w THROTTLE_FILE = JObj state) as Hload
    by (unfold loaded; by rewrite Hrf, Hfile).
  assert (gate int_of_str (loaded w THROTTLE_FILE) = Raise ex) as Hg.
  { rewrite Hload. unfold gate. cbn [py_dict].
    fold (st_last_failed state). fold (st_counter int_of_str state).
    by rewrite Hlf, Hc. }
  exact (main_gate_raises int_of_str w ex Hl Hg).
Qed.

Lemma corrupt_counter_stops_a_streak_run_witness :
  lock (env world_null_counter) ≠ FlockBlocks
  ∧ read_faults (env world_null_counter) 0%nat = false
  ∧ files world_null_counter !! THROTTLE_FILE
    = Some (File (Document (JObj null_counter_state)) true)
  ∧ st_last_failed null_counter_state = true
  ∧ st_counter no_int null_counter_state
    = Raise (TypeError "int() argument must be a string, a bytes-like object or a real number")
  ∧ ∃ fs' e',
      main no_int world_null_counter
        = (Raise (TypeError "int() argument must be a string, a bytes-like object or a real number"),
           MkWorld fs' (trace world_null_counter) e')
      ∧ ∀ q, q ≠ LOCK_FILE → fs' !! q = files world_null_counter !! q.
Proof.
  assert (lock (env world_null_counter) ≠ FlockBlocks) as H1 by discriminate.
  assert (files world_null_counter !! THROTTLE_FILE
          = Some (File (Document (JObj null_counter_state)) true)) as H3
    by (vm_compute; reflexivity).
  assert (st_last_failed null_counter_state = true) as H4
    by (vm_compute; reflexivity).
  assert (st_counter no_int null_counter_state
          = Raise (TypeError "int() argument must be a string, a bytes-like object or a real number"))
    as H5 by (vm_compute; reflexivity).
  exact (conj H1 (conj eq_refl (conj H3 (conj H4 (conj H5
           (corrupt_counter_stops_a_streak_run no_int world_null_counter
              null_counter_state true _ H1 eq_refl H3 H4 H5)))))).
Defined.

Lemma stamped_updated_at state lf now :
  stamped state lf now !! "updated_at" = Some (JStr now).
Proof. unfold stamped. by rewrite lookup_insert_eq. Qed.

Lemma stamped_other state lf now key :
  key ≠ "updated_at" → key ≠ "counter" → key ≠ "last_failed" →
  stamped state lf now !! key = state !! key.
Proof.
  intros H1 H2 H3. unfold stamped. rewrite lookup_insert_ne by done.
  destruct lf; cbn [negb]; by rewrite !lookup_insert_ne by done.
Qed.

Section AfterRun.
Variable int_of_str : string -> option Z.

(** A run that gets past the lock and returns has written the throttle
    file: the dict the gate handed on, stamped with the outcome. *)
Lemma main_returns w code :
  lock (env w) ≠ FlockBlocks →
  fst (main int_of_str w) = Ok code →
  ∃ (skip : bool) state0 n (tr : list event) (b : bool) fs' e' now,
    loaded w THROTTLE_FILE = JObj state0
    ∧ (skip = true → st_last_failed state0 = true)
    ∧ (st_last_failed state0 = false → n = 0)
    ∧ main int_of_str w = (Ok code, MkWorld fs' (trace w ++ tr) e')
    ∧ (if skip then tr = [] ∧ code = 0
       else loop_run (http (env w)) (seqZ 1 MAX_RETRIES) BASE_WAIT_SECONDS tr b
            ∧ code = if b then 0 else 1)
    ∧ fs' !! THROTTLE_FILE
      = Some (File (Document
                     (JObj (stamped (<["counter" := JInt n]> state0)
                              (skip || negb b) now))) true).
Proof.
  intros Hl Hcode.
  destruct (gate int_of_str (loaded w THROTTLE_FILE)) as [[skip state1]|ex]
    eqn:Hg.
  2:{ destruct (main_gate_raises int_of_str w ex Hl Hg) as (? & ? & Hm & _).
      rewrite Hm in Hcode. discriminate. }
  destruct (gate_ok_shape int_of_str _ _ _ Hg)
    as (state0 & n & Hload & -> & Hskip & Hn).
  destruct skip.
  - destruct (main_skipped int_of_str w _ Hl Hg) as (fs' & e' & Hm & Hthr & _).
    rewrite Hm in Hcode. cbn [fst] in Hcode.
    destruct (faulty (write_faults (env w) 0%nat)); [discriminate|].
    destruct (faulty (write_faults (env w) 1%nat)); [discriminate|].
    cbn [orb] in *. injection Hcode as <-.
    exists true, state0, n, [], false, fs', e', (clock (env w) 0%nat).
    rewrite app_nil_r. repeat split; try done. by apply Hthr.
  - destruct (main_ran int_of_str w _ Hl Hg)
      as (tr & b & fs' & e' & Hm & Hrun & _ & Hthr).
    rewrite Hm in Hcode. cbn [fst] in Hcode.
    destruct (faulty (write_faults (env w) 0%nat)); [discriminate|].
    destruct (faulty (write_faults (env w) 1%nat)); [discriminate|].
    cbn [orb] in *. injection Hcode as <-.
    destruct (Hthr eq_refl eq_refl) as [now Hfile].
    exists false, state0, n, tr, b, fs', e', now. by repeat split.
Qed.
End AfterRun.

(** X11. After any run that gets past the lock and returns, the throttle
    file holds a dict with a boolean [last_failed], an integer [counter]
    and a string [updated_at]. The other keys of the dict that was read
    are kept as they were, and [should_throttle] of the next run does not
    raise on this file. *)
Theorem throttle_file_is_well_formed_after_a_run
    (int_of_str : string → option Z) (e : Env) (fs fs' : Fs) (code : Z)
    (tr : list event) :
  lock e ≠ FlockBlocks →
  invoke int_of_str e fs = ((Ok code, tr), fs') →
  ∃ state' (lf : bool) (n : Z) (now : string),
    fs' !! THROTTLE_FILE = Some (File (Document (JObj state')) true)
    ∧ state' !! "last_failed" = Some (JBool lf)
    ∧ state' !! "counter" = Some (JInt n)
    ∧ state' !! "updated_at" = Some (JStr now)
    ∧ (∀ state sy key,
         read_faults e 0%nat = false →
         fs !! THROTTLE_FILE = Some (File (Document (JObj state)) sy) →
         key ≠ "last_failed" → key ≠ "counter" → key ≠ "updated_at" →
         state' !! key = state !! key)
    ∧ (∀ w2, files w2 = fs' → read_faults (env w2) 0%nat = false →
         ∃ skip state2, fst (should_throttle int_of_str w2) = Ok (skip, state2)).
Proof.
  intros Hl Hinv. unfold invoke in Hinv.
  destruct (main int_of_str (MkWorld fs [] e)) as [r w'] eqn:Hm.
  injection Hinv as -> <- <-.
  destruct (main_returns int_of_str (MkWorld fs [] e) code Hl)
    as (skip & state0 & n & tr & b & fs' & e' & now
        & Hload & _ & _ & Hm' & _ & Hfile).
  { by rewrite Hm. }
  rewrite Hm' in Hm. injection Hm as <-. cbn [files].
  set (lf := skip || negb b) in *.
  exists (stamped (<["counter" := JInt n]> state0) lf now), lf,
    (if lf then n else 0), now.
  split; [done|]. split; [apply stamped_last_failed|].
  split; [rewrite stamped_counter, lookup_insert_eq; by destruct lf|].
  split; [apply stamped_updated_at|]. split.
  - intros state sy key Hrf Hfs H1 H2 H3.
    rewrite stamped_other, lookup_insert_ne by done.
    unfold loaded in Hload. cbn [files env] in Hload.
    rewrite Hrf, Hfs in Hload. by injection Hload as <-.
  - intros w2 Hw2 Hrf2. rewrite should_throttle_eq. cbn [fst].
    unfold loaded. rewrite Hrf2, Hw2, Hfile. cbn [data].
    rewrite gate_dict. unfold st_last_failed, st_counter, dict_get.
    rewrite stamped_last_failed, stamped_counter, lookup_insert_eq.
    cbn [py_bool]. destruct lf; cbn [py_int]; by eexists _, _.
Qed.

Lemma throttle_file_is_well_formed_after_a_run_witness :
  lock (env world_torn_throttle) ≠ FlockBlocks
  ∧ invoke no_int (env world_torn_throttle) (files world_torn_throttle)
    = ((Ok 1, snd (fst (invoke no_int (env world_torn_throttle)
                          (files world_torn_throttle)))),
       snd (invoke no_int (env world_torn_throttle)
              (files world_torn_throttle)))
  ∧ ∃ state' (lf : bool) (n : Z) (now : string),
      snd (invoke no_int (env world_torn_throttle) (files world_torn_throttle))
        !! THROTTLE_FILE = Some (File (Document (JObj state')) true)
      ∧ state' !! "last_failed" = Some (JBool lf)
      ∧ state' !! "counter" = Some (JInt n)
      ∧ state' !! "updated_at" = Some (JStr now).
Proof.
  assert (lock (env world_torn_throttle) ≠ FlockBlocks) as H1 by discriminate.
  assert (invoke no_int (env world_torn_throttle) (files world_torn_throttle)
          = ((Ok 1, snd (fst (invoke no_int (env world_torn_throttle)
                                (files world_torn_throttle)))),
             snd (invoke no_int (env world_torn_throttle)
                    (files world_torn_throttle)))) as H2
    by (vm_compute; reflexivity).
  destruct (throttle_file_is_well_formed_after_a_run no_int _ _ _ _ _ H1 H2)
    as (state' & lf & n & now & H3 & H4 & H5 & H6 & _).
  exact (conj H1 (conj H2
           (ex_intro _ state' (ex_intro _ lf (ex_intro _ n (ex_intro _ now
              (conj H3 (conj H4 (conj H5 H6))))))))).
Defined.

(** X9. A run that probed and exited 0 leaves [last_failed] false and
    [counter] 0, and the next run that gets past the lock and reads the
    file is not throttled: it starts with a probe. *)
Theorem success_ends_the_streak (int_of_str : string → option Z)
    (e1 e2 : Env) (fs fs1 : Fs) (tr1 : list event) :
  lock e1 ≠ FlockBlocks →
  invoke int_of_str e1 fs = ((Ok 0, tr1), fs1) →
  tr1 ≠ [] →
  lock e2 ≠ FlockBlocks →
  read_faults e2 0%nat = false →
  ∃ state1,
    fs1 !! THROTTLE_FILE = Some (File (Document (JObj state1)) true)
    ∧ state1 !! "last_failed" = Some (JBool false)
    ∧ state1 !! "counter" = Some (JInt 0)
    ∧ ∃ r2 c tr2 fs2,
        invoke int_of_str e2 fs1 = ((r2, EProbe c :: tr2), fs2).
Proof.
  intros Hl1 Hinv Hne Hl2 Hrf2. unfold invoke in Hinv.
  destruct (main int_of_str (MkWorld fs [] e1)) as [r w'] eqn:Hm.
  injection Hinv as -> <- <-.
  destruct (main_returns int_of_str (MkWorld fs [] e1) 0 Hl1)
    as (skip & state0 & n & tr & b & fs' & e' & now
        & _ & _ & _ & Hm' & Hpath & Hfile).
  { by rewrite Hm. }
  rewrite Hm' in Hm. injection Hm as <-. cbn [files trace app] in *.
  destruct skip; [by destruct Hpath as [-> _]|].
  destruct Hpath as [_ Hb]. destruct b; [|discriminate]. cbn [orb negb] in Hfile.
  eexists. split; [exact Hfile|].
  split; [apply stamped_last_failed|].
  split; [by rewrite stamped_counter|].
  set (w2 := MkWorld fs' [] e2).
  assert (gate int_of_str (loaded w2 THROTTLE_FILE)
          = Ok (false, <["counter" := JInt 0]>
                         (stamped (<["counter" := JInt n]> state0) false now)))
    as Hg.
  { unfold loaded, w2. cbn [files env]. rewrite Hrf2, Hfile. cbn [data].
    rewrite gate_dict. unfold st_last_failed, dict_get.
    by rewrite stamped_last_failed. }
  destruct (main_ran int_of_str w2 _ Hl2 Hg)
    as (tr2 & b2 & fs2 & e2' & Hm2 & Hrun2 & _).
  destruct (loop_run_starts_with_probe _ _ _ _ _ _ Hrun2) as (c & tr2' & ->).
  unfold invoke. fold w2. rewrite Hm2. cbn. by eexists _, c, tr2', fs2.
Qed.

Lemma success_ends_the_streak_witness :
  lock (env world_200) ≠ FlockBlocks
  ∧ invoke no_int (env world_200) ∅
    = ((Ok 0, [EProbe (Some 200)]), snd (invoke no_int (env world_200) ∅))
  ∧ [EProbe (Some 200)] ≠ []
  ∧ read_faults (env world_500) 0%nat = false
  ∧ ∃ state1,
      snd (invoke no_int (env world_200) ∅) !! THROTTLE_FILE
        = Some (File (Document (JObj state1)) true)
      ∧ state1 !! "last_failed" = Some (JBool false)
      ∧ state1 !! "counter" = Some (JInt 0)
      ∧ ∃ r2 c tr2 fs2,
          invoke no_int (env world_500) (snd (invoke no_int (env world_200) ∅))
            = ((r2, EProbe c :: tr2), fs2).
Proof.
  assert (lock (env world_200) ≠ FlockBlocks) as H1 by discriminate.
  assert (invoke no_int (env world_200) ∅
          = ((Ok 0, [EProbe (Some 200)]), snd (invoke no_int (env world_200) ∅)))
    as H2 by (vm_compute; reflexivity).
  assert ([EProbe (Some 200)] ≠ []) as H3 by discriminate.
  exact (conj H1 (conj H2 (conj H3 (conj eq_refl
           (success_ends_the_streak no_int (env world_200) (env world_500)
              ∅ _ _ H1 H2 H3 H1 eq_refl))))).
Defined.

(* ===================================================================== *)
(** ** The status file and the exit status                                *)
(* ===================================================================== *)

Section StatusFile.
Variable int_of_str : string -> option Z.

(** The status file of a skipped run whose first write completes. *)
Lemma main_skipped_status w state :
  lock (env w) ≠ FlockBlocks →
  gate int_of_str (loaded w THROTTLE_FILE) = Ok (true, state) →
  faulty (write_faults (env w) 0%nat) = false →
  faulty (write_faults (env w) 1%nat) = false →
  ∃ fs' e',
    main int_of_str w = (Ok 0, MkWorld fs' (trace w) e')
    ∧ fs' !! STATUS_FILE
      = Some (File (Document
                     (JObj (status_payload false skip_details
                              (clock (env w) 1%nat)))) true).
Proof.
  intros Hl Hg F0 F1. unfold main. mred.
  destruct (acquire_lock_frame w) as (g & fs1 & -> & Hgd & Hfs).
  destruct g as [|fd]; [by destruct Hl; apply Hgd|].
  rewrite should_throttle_eq, loaded_after_lock, Hg by done.
  cbn [files trace env].
  rewrite update_throttle_state_eq, write_json_atomic_eq.
  cbn [files trace env pop_read pop_clock pop_write write_faults clock].
  rewrite run_write_result, F0.
  rewrite write_status_eq, write_json_atomic_eq.
  cbn [files trace env pop_read pop_clock pop_write write_faults clock
       tl_stream].
  rewrite run_write_result, F1.
  eexists _, _. split; [reflexivity|].
  match goal with |- context [run_ops (write_ops STATUS_FILE ?d) ?o ?fs] =>
    by destruct (run_write_ok STATUS_FILE d o fs F1) as (_ & -> & _) end.
Qed.

(** The status file of a run that went past the gate and returned. *)
Lemma main_ran_status w state :
  lock (env w) ≠ FlockBlocks →
  gate int_of_str (loaded w THROTTLE_FILE) = Ok (false, state) →
  faulty (write_faults (env w) 0%nat) = false →
  faulty (write_faults (env w) 1%nat) = false →
  ∃ ls tr fs' e' now,
    main int_of_str w
      = (Ok (if succeeded ls then 0 else 1), MkWorld fs' (trace w ++ tr) e')
    ∧ (∃ c tr', tr = EProbe c :: tr')
    ∧ length (attempts ls) = length (probes tr)
    ∧ length (restart_errors ls)
      = length (filter (λ ok, ok = false) (restarts tr))
    ∧ fs' !! STATUS_FILE
      = Some (File (Document
                     (JObj (status_payload (succeeded ls) (run_details ls)
                              now))) true).
Proof.
  intros Hl Hg F0 F1. unfold main. mred.
  destruct (acquire_lock_frame w) as (g & fs1 & -> & Hgd & Hfs).
  destruct g as [|fd]; [by destruct Hl; apply Hgd|].
  rewrite should_throttle_eq, loaded_after_lock, Hg by done.
  cbn [files trace env]. unfold run_attempts.
  match goal with |- context [retry_loop ?ix ?ls ?w1] =>
    destruct (retry_loop_exact ix ls w1)
      as (ls' & tr & e' & -> & (b & Hrun & _) & Ha & Hr & He & Hio) end.
  cbn [files trace env pop_read http systemctl clock attempts restart_errors
       wait app] in *.
  destruct Hio as (_ & Hwf & _). cbn [pop_read write_faults] in Hwf.
  rewrite write_status_eq, write_json_atomic_eq.
  cbn [files trace env pop_clock write_faults]. rewrite Hwf.
  rewrite run_write_result, F0.
  rewrite update_throttle_state_eq, write_json_atomic_eq.
  cbn [files trace env pop_clock pop_write write_faults clock tl_stream].
  rewrite Hwf, run_write_result, F1.
  exists ls', tr. eexists _, _, (clock e' 0%nat). split; [reflexivity|].
  split; [exact (loop_run_starts_with_probe _ _ _ _ _ _ Hrun)|].
  split.
  { rewrite Ha, length_imap, length_take.
    pose proof (loop_run_bound _ _ _ _ _ Hrun). lia. }
  split.
  { rewrite He. rewrite Hr at 2.
    generalize (seq 0 (length (restarts tr))). intros l.
    induction l as [|k l IH]; [done|].
    cbn [fmap list_fmap]. rewrite failure_messages_cons, filter_cons.
    destruct (fst (restart_result (systemctl (env w) k))); cbn.
    - by rewrite decide_False by done.
    - rewrite decide_True by done. cbn. by f_equal. }
  match goal with |- context [run_ops (write_ops THROTTLE_FILE ?d) ?o ?fs] =>
    destruct (run_write_ok THROTTLE_FILE d o fs F1) as (_ & _ & ->); try done end.
  match goal with |- context [run_ops (write_ops STATUS_FILE ?d) ?o ?fs] =>
    by destruct (run_write_ok STATUS_FILE d o fs F0) as (_ & -> & _) end.
Qed.
End StatusFile.

(** X5. After a run that gets past the lock and returns, the status file
    holds a dict with [updated_at], [succeeded] and
    [skipped_due_to_throttle]. [succeeded] is true exactly when the run
    probed and exits 0, and [skipped_due_to_throttle] exactly when it did
    not probe. A skipped run exits 0, writes the note and no attempts; a
    run that probed writes one attempt record per probe, one restart
    error per failed restart and the configuration, and no note. *)
Theorem status_file_tells_the_run (int_of_str : string → option Z)
    (w : World) (code : Z) :
  lock (env w) ≠ FlockBlocks →
  fst (main int_of_str w) = Ok code →
  ∃ d tr fs' e' now (ok skipped : bool),
    snd (main int_of_str w) = MkWorld fs' (trace w ++ tr) e'
    ∧ fs' !! STATUS_FILE = Some (File (Document (JObj d)) true)
    ∧ d !! "updated_at" = Some (JStr now)
    ∧ d !! "succeeded" = Some (JBool ok)
    ∧ d !! "skipped_due_to_throttle" = Some (JBool skipped)
    ∧ (ok = true ↔ code = 0 ∧ tr ≠ [])
    ∧ (skipped = true ↔ tr = [])
    ∧ (tr = [] →
       code = 0 ∧ d !! "attempts" = None
       ∧ d !! "note"
         = Some (JStr "Previous run failed; running only 1 in 10 invocations."))
    ∧ (tr ≠ [] →
       ∃ recs errs,
         d !! "attempts" = Some (JArr (JObj <$> recs))
         ∧ length recs = length (probes tr)
         ∧ d !! "restart_errors" = Some (JArr (JStr <$> errs))
         ∧ length errs = length (filter (λ r, r = false) (restarts tr))
         ∧ d !! "url" = Some (JStr URL)
         ∧ d !! "service" = Some (JStr SERVICE_NAME)
         ∧ d !! "max_retries" = Some (JInt MAX_RETRIES)
         ∧ d !! "base_wait_seconds" = Some (JInt BASE_WAIT_SECONDS)
         ∧ d !! "wait_increment_seconds" = Some (JInt WAIT_INCREMENT_SECONDS)
         ∧ d !! "note" = None).
Proof.
  intros Hl Hcode.
  destruct (gate int_of_str (loaded w THROTTLE_FILE)) as [[[] state]|ex] eqn:Hg.
  - destruct (main_skipped int_of_str w state Hl Hg) as (? & ? & Hm & _).
    rewrite Hm in Hcode. cbn [fst] in Hcode.
    destruct (faulty (write_faults (env w) 0%nat)) eqn:F0; [discriminate|].
    destruct (faulty (write_faults (env w) 1%nat)) eqn:F1; [discriminate|].
    injection Hcode as <-. clear Hm.
    destruct (main_skipped_status int_of_str w state Hl Hg F0 F1)
      as (fs' & e' & -> & Hfile).
    eexists _, [], fs', e', _, false, true. rewrite app_nil_r.
    split; [reflexivity|]. split; [exact Hfile|].
    repeat split; try done. by intros [].
  - pose proof Hcode as Hcode0.
    destruct (main_ran int_of_str w state Hl Hg) as (? & ? & ? & ? & Hm & _).
    rewrite Hm in Hcode0. cbn [fst] in Hcode0.
    destruct (faulty (write_faults (env w) 0%nat)) eqn:F0; [discriminate|].
    destruct (faulty (write_faults (env w) 1%nat)) eqn:F1; [discriminate|].
    clear Hm Hcode0.
    destruct (main_ran_status int_of_str w state Hl Hg F0 F1)
      as (ls & tr & fs' & e' & now & Hm & (c & tr' & ->) & Ha & He & Hfile).
    rewrite Hm in Hcode. injection Hcode as <-. rewrite Hm. cbn [snd].
    eexists _, (EProbe c :: tr'), fs', e', now, (succeeded ls), false.
    split; [reflexivity|]. split; [exact Hfile|].
    split; [reflexivity|]. split; [reflexivity|]. split; [reflexivity|].
    split; [destruct (succeeded ls); split; try done; by intros []|].
    split; [done|]. split; [done|]. intros _.
    exists (attempts ls), (restart_errors ls). by repeat split.
  - destruct (main_gate_raises int_of_str w ex Hl Hg) as (? & ? & Hm & _).
    rewrite Hm in Hcode. discriminate.
Qed.

Lemma status_file_tells_the_run_witness :
  lock (env world_500) ≠ FlockBlocks
  ∧ fst (main no_int world_500) = Ok 1
  ∧ ∃ d tr fs' e' now (ok skipped : bool),
      snd (main no_int world_500) = MkWorld fs' (trace world_500 ++ tr) e'
      ∧ fs' !! STATUS_FILE = Some (File (Document (JObj d)) true)
      ∧ d !! "updated_at" = Some (JStr now)
      ∧ d !! "succeeded" = Some (JBool ok)
      ∧ d !! "skipped_due_to_throttle" = Some (JBool skipped)
      ∧ (ok = true ↔ 1 = 0 ∧ tr ≠ [])
      ∧ (skipped = true ↔ tr = []).
Proof.
  assert (lock (env world_500) ≠ FlockBlocks) as H1 by discriminate.
  assert (fst (main no_int world_500) = Ok 1) as H2 by (vm_compute; reflexivity).
  destruct (status_file_tells_the_run no_int world_500 1 H1 H2)
    as (d & tr & fs' & e' & now & ok & skipped
        & H3 & H4 & H5 & H6 & H7 & H8 & H9 & _).
  split; [exact H1|]. split; [exact H2|].
  exists d, tr, fs', e', now, ok, skipped.
  exact (conj H3 (conj H4 (conj H5 (conj H6 (conj H7 (conj H8 H9)))))).
Defined.

(** X14. The exit status of the process is 0 or 1. It is 0 exactly when
    the run is locked out, or when [should_throttle] decides, both writes
    of the run complete, and the run is skipped or one of its five probes
    gives 200. Every other run, also one that ends in an exception, exits
    1. *)
Theorem process_exit_status (int_of_str : string → option Z) (w : World) :
  let exit := fst (script int_of_str w) in
  (exit = 0 ∨ exit = 1)
  ∧ (exit = 0 ↔
     lock (env w) = FlockBlocks
     ∨ ∃ (skip : bool) state,
         fst (should_throttle int_of_str w) = Ok (skip, state)
         ∧ faulty (write_faults (env w) 0%nat) = false
         ∧ faulty (write_faults (env w) 1%nat) = false
         ∧ (skip = true
            ∨ ∃ k, (k < 5)%nat
                   ∧ fst (probe_result (http (env w) k)) = Some 200)).
Proof.
  cbn zeta. unfold script. rewrite should_throttle_eq. cbn [fst].
  destruct (decide (lock (env w) = FlockBlocks)) as [Hl|Hl].
  { destruct (main_locked_out int_of_str w Hl) as (fs' & -> & _). cbn.
    split; [by left|]. split; [by left|done]. }
  destruct (gate int_of_str (loaded w THROTTLE_FILE)) as [[[] state]|ex] eqn:Hg.
  - destruct (main_skipped int_of_str w state Hl Hg) as (fs' & e' & -> & _).
    destruct (faulty (write_faults (env w) 0%nat)),
             (faulty (write_faults (env w) 1%nat)); cbn;
      try (split; [by right|]; split; [done|];
           intros [?|(? & ? & _ & ? & ? & _)]; done).
    split; [by left|]. split; [|done]. intros _. right.
    exists true, state. repeat split. by left.
  - destruct (main_ran int_of_str w state Hl Hg)
      as (tr & b & fs' & e' & -> & Hrun & _).
    pose proof (loop_run_success_iff _ _ _ _ _ Hrun) as Hiff.
    change (length (seqZ 1 MAX_RETRIES)) with 5%nat in Hiff.
    destruct (faulty (write_faults (env w) 0%nat)),
             (faulty (write_faults (env w) 1%nat)); cbn;
      try (split; [by right|]; split; [done|];
           intros [?|(? & ? & _ & ? & ? & _)]; done).
    destruct b; cbn.
    + split; [by left|]. split; [|done]. intros _. right.
      exists false, state. repeat split. right. by apply Hiff.
    + split; [by right|]. split; [done|].
      intros [?|(skip & st & [= <- <-] & _ & _ & [?|H200])]; try done.
      by apply Hiff in H200.
  - destruct (main_gate_raises int_of_str w ex Hl Hg) as (fs' & e' & -> & _).
    cbn. split; [by right|]. split; [done|].
    by intros [?|(? & ? & ? & _)].
Qed.

Section Positions.
Variable int_of_str : string -> option Z.

(** One run of a failure streak, with its report. *)
Lemma invoke_failing_report e fs state sy c :
  failing e →
  fs !! THROTTLE_FILE = Some (File (Document (JObj state)) sy) →
  st_last_failed state = true →
  st_counter int_of_str state = Ok c →
  ∃ (tr : list event) fs' state',
    invoke int_of_str e fs
      = ((Ok (if Z.eqb ((c + 1) mod RUN_EVERY_N_AFTER_FAILURE) 0
              then 1 else 0), tr), fs')
    ∧ (tr = [] ↔ (c + 1) mod RUN_EVERY_N_AFTER_FAILURE ≠ 0)
    ∧ fs' !! THROTTLE_FILE = Some (File (Document (JObj state')) true)
    ∧ st_last_failed state' = true
    ∧ st_counter int_of_str state' = Ok (c + 1).
Proof.
  intros (Hl & Hrf & F0 & F1 & Hall) Hfile Hlf Hc.
  pose proof (gate_dict int_of_str state) as Hg. rewrite Hlf, Hc in Hg.
  destruct (invoke_gate_ok int_of_str e fs state sy _ _ Hl Hrf Hfile Hg)
    as (tr & b & fs' & -> & Htr & Hthr).
  rewrite F0, F1. cbn [orb]. destruct (Hthr F0 F1) as [now Hfile'].
  destruct (Z.eqb_spec ((c + 1) mod RUN_EVERY_N_AFTER_FAILURE) 0) as [E|E];
    cbn [negb orb] in *; (eexists tr, fs', _).
  - destruct (loop_run_exhausted _ _ _ Hall Htr) as (-> & _).
    cbn [negb] in Hfile'. split; [reflexivity|].
    pose proof (loop_run_nonempty _ _ _ _ _ _ Htr).
    split; [by split|]. split; [exact Hfile'|].
    unfold st_last_failed, st_counter, dict_get.
    by rewrite stamped_last_failed, stamped_counter, lookup_insert_eq.
  - subst tr. split; [reflexivity|]. split; [by split|].
    split; [exact Hfile'|].
    unfold st_last_failed, st_counter, dict_get.
    by rewrite stamped_last_failed, stamped_counter, lookup_insert_eq.
Qed.
End Positions.

(** X16. In a failure streak of runs that meet no 200 and no fault,
    starting from the counter [c], the run at position [j] (from 0)
    probes and exits 1 when [c + j + 1] is a multiple of
    [RUN_EVERY_N_AFTER_FAILURE], and otherwise is skipped and exits 0. *)
Theorem streak_runs_by_position (int_of_str : string → option Z)
    (es : list Env) (fs : Fs) (state : dict) (sy : bool) (c : Z) :
  Forall failing es →
  fs !! THROTTLE_FILE = Some (File (Document (JObj state)) sy) →
  st_last_failed state = true →
  st_counter int_of_str state = Ok c →
  length (fst (cron int_of_str es fs)) = length es
  ∧ ∀ (j : nat) r tr, fst (cron int_of_str es fs) !! j = Some (r, tr) →
      if Z.eqb ((c + Z.of_nat j + 1) mod RUN_EVERY_N_AFTER_FAILURE) 0
      then r = Ok 1 ∧ tr ≠ []
      else r = Ok 0 ∧ tr = [].
Proof.
  revert fs state sy c.
  induction es as [|e es IH]; intros fs state sy c Hes Hfile Hlf Hc.
  - split; [done|]. intros j r tr Hj. discriminate.
  - apply Forall_cons in Hes as [He Hes].
    destruct (invoke_failing_report int_of_str e fs state sy c He Hfile Hlf Hc)
      as (tr0 & fs' & state' & Hinv & Htr0 & Hfile' & Hlf' & Hc').
    cbn [cron]. rewrite Hinv.
    destruct (IH fs' state' true (c + 1) Hes Hfile' Hlf' Hc') as [Hlen Hpos].
    destruct (cron int_of_str es fs') as [reps fs2]. cbn [fst] in *.
    split; [cbn; by rewrite Hlen|].
    intros [|j] r tr Hj; cbn in Hj.
    + injection Hj as <- <-. replace (c + Z.of_nat 0 + 1) with (c + 1) by lia.
      destruct (Z.eqb_spec ((c + 1) mod RUN_EVERY_N_AFTER_FAILURE) 0) as [E|E].
      * split; [done|]. intros Hnil. by apply Htr0 in Hnil.
      * split; [done|]. by apply Htr0.
    + specialize (Hpos j r tr Hj).
      by replace (c + Z.of_nat (S j) + 1) with (c + 1 + Z.of_nat j + 1) by lia.
Qed.

Lemma streak_runs_by_position_witness :
  Forall failing (replicate 7 (env world_streak))
  ∧ streak_files !! THROTTLE_FILE
    = Some (File (Document (JObj streak_state)) true)
  ∧ st_last_failed streak_state = true
  ∧ st_counter no_int streak_state = Ok 3
  ∧ length (fst (cron no_int (replicate 7 (env world_streak)) streak_files))
    = length (replicate 7 (env world_streak)).
Proof.
  assert (failing (env world_streak)) as Hf.
  { repeat split; try reflexivity; [discriminate|].
    intros k _. cbn. discriminate. }
  assert (Forall failing (replicate 7 (env world_streak))) as H1
    by (apply Forall_replicate; exact Hf).
  assert (streak_files !! THROTTLE_FILE
          = Some (File (Document (JObj streak_state)) true)) as H2
    by (vm_compute; reflexivity).
  assert (st_last_failed streak_state = true) as H3 by (vm_compute; reflexivity).
  assert (st_counter no_int streak_state = Ok 3) as H4
    by (vm_compute; reflexivity).
  destruct (streak_runs_by_position no_int _ _ _ true 3 H1 H2 H3 H4)
    as [H5 _].
  exact (conj H1 (conj H2 (conj H3 (conj H4 H5)))).
Defined.

(** X17. When the first write of a run completes and the second is cut
    short, [main] raises and the two files are out of step. A skipped run
    has then written the throttle file and left the status file as it
    was; a run that probed has written the status file, with [succeeded]
    true exactly when a probe gave 200, and left the throttle file as it
    was. *)

Theorem second_write_fault_leaves_the_files_out_of_step
    (int_of_str : string → option Z) (w : World) (skip : bool) (state : dict) :
  lock (env w) ≠ FlockBlocks →
  fst (should_throttle int_of_str w) = Ok (skip, state) →
  faulty (write_faults (env w) 0%nat) = false →
  faulty (write_faults (env w) 1%nat) = true →
  ∃ fs' tr e',
    main int_of_str w
      = (Raise (OSError "I/O error"), MkWorld fs' (trace w ++ tr) e')
    ∧ if skip then
        tr = []
        ∧ fs' !! THROTTLE_FILE
        = Some (File (Document
                       (JObj (stamped state true (clock (env w) 0%nat)))) true)
        ∧ fs' !! STATUS_FILE = files w !! STATUS_FILE
      else
        (∃ d ok, fs' !! STATUS_FILE = Some (File (Document (JObj d)) true)
                 ∧ d !! "succeeded" = Some (JBool ok)
                 ∧ (ok = true ↔ (Some 200 ∈ probes tr)))
        ∧ fs' !! THROTTLE_FILE = files w !! THROTTLE_FILE.
Proof.
  intros Hl Hst F0 F1. rewrite should_throttle_eq in Hst. cbn [fst] in Hst.
  destruct (main_proceeds int_of_str w Hl) as (fs1 & Hfs1 & ->).
  unfold after_lock. mred. rewrite should_throttle_eq.
  rewrite loaded_after_lock, Hst by done. cbn [files trace env].
  destruct skip.
  - rewrite update_throttle_state_eq, write_json_atomic_eq.
    cbn [files trace env pop_read pop_clock pop_write write_faults clock].
    rewrite run_write_result, F0.
    rewrite write_status_eq, write_json_atomic_eq.
    cbn [files trace env pop_read pop_clock pop_write write_faults clock
         tl_stream].
    rewrite run_write_result, F1.
    eexists _, [], _. rewrite app_nil_r. split; [reflexivity|].
    split; [done|].
    match goal with |- context [run_ops (write_ops STATUS_FILE ?d) ?o ?fs] =>
      destruct (run_write_fail STATUS_FILE d o fs F1) as (_ & Hs) end.
    rewrite !Hs by done.
    match goal with |- context [run_ops (write_ops THROTTLE_FILE ?d) ?o ?fs] =>
      destruct (run_write_ok THROTTLE_FILE d o fs F0) as (_ & Ht & Hto) end.
    split; [exact Ht|]. rewrite Hto by done. by apply Hfs1.
  - unfold run_attempts.
    match goal with |- context [retry_loop ?ix ?ls ?w1] =>
      destruct (retry_loop_run ix ls w1)
        as (ls' & e' & tr & b & -> & Hrun & Hs & _ & Hio) end.
    cbn [files trace env pop_read http wait succeeded] in *.
    rewrite orb_false_r in Hs. subst b.
    destruct Hio as (_ & Hwf & _). cbn [pop_read write_faults] in Hwf.
    rewrite write_status_eq, write_json_atomic_eq.
    cbn [files trace env pop_clock write_faults]. rewrite Hwf.
    rewrite run_write_result, F0.
    rewrite update_throttle_state_eq, write_json_atomic_eq.
    cbn [files trace env pop_clock pop_write write_faults clock tl_stream].
    rewrite Hwf, run_write_result, F1.
    eexists _, tr, _. split; [reflexivity|].
    match goal with |- context [run_ops (write_ops THROTTLE_FILE ?d) ?o ?fs] =>
      destruct (run_write_fail THROTTLE_FILE d o fs F1) as (_ & Ht) end.
    rewrite !Ht by done.
    match goal with |- context [run_ops (write_ops STATUS_FILE ?d) ?o ?fs] =>
      destruct (run_write_ok STATUS_FILE d o fs F0) as (_ & Hsf & Hso) end.
    split.
    + eexists _, (succeeded ls'). split; [exact Hsf|]. split; [reflexivity|].
      pose proof (loop_run_flag _ _ _ _ _ Hrun) as Hflag.
      destruct (succeeded ls').
      * destruct Hflag as (pre & -> & _). split; [intros _|done].
        rewrite probes_app. apply elem_of_app. right.
        by apply list_elem_of_singleton.
      * by destruct Hflag as [_ Hno].
    + rewrite Hso by done. by apply Hfs1.
Qed.

Lemma second_write_fault_leaves_the_files_out_of_step_witness :
  lock (env world_second_write_fails) ≠ FlockBlocks
  ∧ fst (should_throttle no_int world_second_write_fails)
    = Ok (true, <["counter" := JInt 4]> streak_state)
  ∧ faulty (write_faults (env world_second_write_fails) 0%nat) = false
  ∧ faulty (write_faults (env world_second_write_fails) 1%nat) = true
  ∧ ∃ fs' tr e',
      main no_int world_second_write_fails
        = (Raise (OSError "I/O error"),
           MkWorld fs' (trace world_second_write_fails ++ tr) e')
      ∧ tr = []
      ∧ fs' !! THROTTLE_FILE
        = Some (File (Document
                       (JObj (stamped (<["counter" := JInt 4]> streak_state)
                                true
                                (clock (env world_second_write_fails) 0%nat))))
                  true)
      ∧ fs' !! STATUS_FILE = files world_second_write_fails !! STATUS_FILE.
Proof.
  assert (lock (env world_second_write_fails) ≠ FlockBlocks) as H1
    by discriminate.
  assert (fst (should_throttle no_int world_second_write_fails)
          = Ok (true, <["counter" := JInt 4]> streak_state)) as H2
    by (vm_compute; reflexivity).
  exact (conj H1 (conj H2 (conj eq_refl (conj eq_refl
           (second_write_fault_leaves_the_files_out_of_step no_int
              world_second_write_fails true _ H1 H2 eq_refl eq_refl))))).
Defined.
